(** * The connection manager of MaidSafe-RUDP

    A shallow embedding of [src/maidsafe/rudp/managed_connections.cc]:
    the directory of a [ManagedConnections] object ([connections_],
    [pendings_], [idle_transports_], [chosen_bootstrap_contact_]) and the
    member functions that read and update it.

    Conventions of the embedding.
    - Every member function runs under [mutex_]; a call is therefore one
      atomic step from a directory to a directory, written in a small
      state monad [M].
    - A [TransportPtr] is a [std::shared_ptr<detail::Transport>]: the
      directory stores pointers, and the transport objects live in a
      store [transports] that several indices may reference at once.
      The code of [detail::Transport] is not part of the translation
      unit; what the manager reads from a transport is a field of the
      record [Transport], what it asks a transport to do is recorded as
      a [Call].
    - [assert] and [BOOST_ASSERT] abort in a debug build and vanish
      when [NDEBUG] is defined; both builds are modelled.
    - [LOG(...)] statements have no effect on the directory and are
      left out. *)

From stdpp Require Import gmap list sorting.
From Stdlib Require Import ZArith.

Set Default Proof Using "Type".

(** ** Data model *)

(** Modelled from the spec: [NodeId] is declared in maidsafe/common, not
    under src/.  It is an opaque identifier with equality and a validity
    predicate; the default-constructed identifier is the invalid one. *)
Definition NodeId := N.
Definition NodeId_default : NodeId := 0%N.
Definition NodeId_IsValid (node_id : NodeId) : bool := negb (node_id =? 0)%N.

(** [boost::asio::ip::address]; the default-constructed address is the
    unspecified one. *)
Definition Address := N.
Definition Address_default : Address := 0%N.
Definition is_unspecified (a : Address) : bool := (a =? 0)%N.

(** [Endpoint] is [boost::asio::ip::udp::endpoint]: an address and a port. *)
Record Endpoint := mkEndpoint { address : Address; port : N }.
Definition Endpoint_default : Endpoint := mkEndpoint Address_default 0%N.

#[global] Instance Endpoint_eq_dec : EqDecision Endpoint.
Proof. solve_decision. Defined.

Record EndpointPair := mkEndpointPair { local : Endpoint; external : Endpoint }.
Definition EndpointPair_default : EndpointPair :=
  mkEndpointPair Endpoint_default Endpoint_default.

#[global] Instance EndpointPair_eq_dec : EqDecision EndpointPair.
Proof. solve_decision. Defined.

Definition PublicKey := N.
Definition PublicKey_default : PublicKey := 0%N.

Record Contact := mkContact {
  id : NodeId;
  endpoint_pair : EndpointPair;
  public_key : PublicKey
}.

(** [Contact()] *)
Definition Contact_default : Contact :=
  mkContact NodeId_default EndpointPair_default PublicKey_default.

#[global] Instance Contact_eq_dec : EqDecision Contact.
Proof. solve_decision. Defined.

Inductive NatType := kSymmetric | kOther | kUnknown.

#[global] Instance NatType_eq_dec : EqDecision NatType.
Proof. solve_decision. Defined.

(** [detail::Connection::State], the states the manager distinguishes. *)
Inductive State := kBootstrapping | kUnvalidated | kPermanent | kTemporary.

#[global] Instance State_eq_dec : EqDecision State.
Proof. solve_decision. Defined.

(** What the manager reads of a [detail::Connection]: [state()] and
    [Socket().PeerEndpoint()]. *)
Record Connection := mkConnection { state : State; PeerEndpoint : Endpoint }.

Definition Message := list Byte.byte.

(** What the manager reads of a [detail::Transport].  [GetConnection]
    returns a null pointer ([None]) when the transport has no connection
    to the peer; [Send] is the boolean the transport's [Send] returns. *)
Record Transport := mkTransport {
  local_endpoint : Endpoint;
  external_endpoint : Endpoint;
  IsIdle : bool;
  IsAvailable : bool;
  NormalConnectionsCount : Z;
  GetConnection : NodeId → option Connection;
  Send : NodeId → Message → bool
}.

Definition TransportPtr := N.

(** [ManagedConnections::PendingConnection].  The deadline timer is
    started by [AddPending]; its expiry is the call [OnPendingTimeout]. *)
Record PendingConnection := mkPendingConnection {
  node_id : NodeId;
  pending_transport : TransportPtr;
  connecting : bool
}.

#[global] Instance PendingConnection_eq_dec : EqDecision PendingConnection.
Proof. solve_decision. Defined.

(** [RudpErrors]; a default-constructed [Error] / [error_code] (no
    error) is [None]. *)
Inductive RudpErrors :=
| failed_to_bootstrap
| already_connected
| connection_already_in_progress
| not_connected
| operation_not_supported.

Definition Error := option RudpErrors.

#[global] Instance RudpErrors_eq_dec : EqDecision RudpErrors.
Proof. solve_decision. Defined.

(** Modelled from the spec: return_codes.h is not under src/; only the
    comparison with [kSuccess] matters. *)
Definition ReturnCode := Z.
Definition kSuccess : ReturnCode := 0%Z.

(** A [std::function]: empty, or a callable identified by a name. *)
Definition Functor := option N.

(** [listener_] is a [std::weak_ptr<Listener>]: [lock()] gives [None]
    once the listener is gone. *)
Definition Listener := N.

Record ManagedConnections := mkManagedConnections {
  listener_ : option Listener;
  this_node_id_ : NodeId;
  chosen_bootstrap_contact_ : Contact;
  connections_ : gmap NodeId TransportPtr;
  pendings_ : list PendingConnection;
  idle_transports_ : gset TransportPtr;
  nat_type_ : NatType
}.

(** What a member function does to the outside: completion handlers it
    invokes, listener notifications, requests to a transport, timers. *)
Inductive Call :=
| Handler_invoked (handler : N) (ec : Error)
| Handler_invoked_on_detached_thread (handler : N) (ec : Error)
| BootstrapHandler_invoked (handler : N) (ec : Error) (chosen : Contact)
| Listener_ConnectionLost (listener : Listener) (peer_id : NodeId)
| Transport_Close (transport : TransportPtr)
| Transport_Connect (transport : TransportPtr) (peer : Contact) (handler : Functor)
| Transport_Send (transport : TransportPtr) (peer_id : NodeId) (message : Message)
    (handler : Functor)
| Transport_SetBestGuessExternalEndpoint (transport : TransportPtr) (e : Endpoint)
| Transport_CloseConnection (transport : TransportPtr) (peer_id : NodeId)
| Timer_async_wait (peer_id : NodeId)
| StartNewTransport_posted.

(** ** The monad of member functions *)

Inductive Failure :=
| assertion_failed        (* [assert] / [BOOST_ASSERT] in a debug build *)
| bad_function_call.      (* an empty [std::function] was invoked *)

Inductive Outcome (A : Type) :=
| Returns (a : A) (mc : ManagedConnections) (calls : list Call)
| Aborts (f : Failure).
Arguments Returns {A} a mc calls.
Arguments Aborts {A} f.

Definition M (A : Type) : Type := ManagedConnections → Outcome A.

#[global] Instance M_ret : MRet M := λ A a mc, Returns a mc [].

#[global] Instance M_bind : MBind M := λ A B f m mc,
  match m mc with
  | Returns a mc1 calls1 =>
      match f a mc1 with
      | Returns b mc2 calls2 => Returns b mc2 (calls1 ++ calls2)
      | Aborts e => Aborts e
      end
  | Aborts e => Aborts e
  end.

Definition get : M ManagedConnections := λ mc, Returns mc mc [].
Definition modify (f : ManagedConnections → ManagedConnections) : M unit :=
  λ mc, Returns tt (f mc) [].
Definition emit (c : Call) : M unit := λ mc, Returns tt mc [c].
Definition abort {A} (f : Failure) : M A := λ _, Aborts f.
Definition skip : M unit := mret tt.

(** Field updates of the directory. *)
Definition set_chosen_bootstrap_contact (c : Contact) (mc : ManagedConnections) :=
  mkManagedConnections (listener_ mc) (this_node_id_ mc) c (connections_ mc)
    (pendings_ mc) (idle_transports_ mc) (nat_type_ mc).
Definition set_connections (m : gmap NodeId TransportPtr) (mc : ManagedConnections) :=
  mkManagedConnections (listener_ mc) (this_node_id_ mc) (chosen_bootstrap_contact_ mc) m
    (pendings_ mc) (idle_transports_ mc) (nat_type_ mc).
Definition set_pendings (l : list PendingConnection) (mc : ManagedConnections) :=
  mkManagedConnections (listener_ mc) (this_node_id_ mc) (chosen_bootstrap_contact_ mc)
    (connections_ mc) l (idle_transports_ mc) (nat_type_ mc).
Definition set_idle_transports (X : gset TransportPtr) (mc : ManagedConnections) :=
  mkManagedConnections (listener_ mc) (this_node_id_ mc) (chosen_bootstrap_contact_ mc)
    (connections_ mc) (pendings_ mc) X (nat_type_ mc).

(** Invoking a [std::function]: an empty one throws. *)
Definition invoke (handler : Functor) (ec : Error) : M unit :=
  match handler with
  | Some h => emit (Handler_invoked h ec)
  | None => abort bad_function_call
  end.

Definition invoke_bootstrap (handler : Functor) (ec : Error) (chosen : Contact) : M unit :=
  match handler with
  | Some h => emit (BootstrapHandler_invoked h ec chosen)
  | None => abort bad_function_call
  end.

(** [static_cast<int>] of a [size_t]: wrap-around to 32 bits, two's
    complement. *)
Definition static_cast_int (n : Z) : Z :=
  ((n + 2 ^ 31) `mod` 2 ^ 32 - 2 ^ 31)%Z.

(** An [int] converted to [size_t] (64 bits). *)
Definition static_cast_size_t (n : Z) : Z := (n `mod` 2 ^ 64)%Z.

(** The product of two [int]s.  When the exact product does not fit 32
    bits the multiplication overflows: undefined behaviour in C++, a
    wrap-around in the built code. *)
Definition int_mul (a b : Z) : Z :=
  ((a * b + 2 ^ 31) `mod` 2 ^ 32 - 2 ^ 31)%Z.

(** Iteration order of the ordered containers: [std::set<TransportPtr>]
    by pointer, [std::map<NodeId, TransportPtr>] by key. *)
Definition set_in_order (X : gset TransportPtr) : list TransportPtr :=
  merge_sort N.le (elements X).

Definition key_le (a b : NodeId * TransportPtr) : Prop := (a.1 ≤ b.1)%N.

#[global] Instance key_le_dec : RelDecision key_le.
Proof. intros a b. unfold key_le. apply _. Defined.

Definition map_in_order (m : gmap NodeId TransportPtr) : list (NodeId * TransportPtr) :=
  merge_sort key_le (map_to_list m).

(** What [GetAvailableEndpoint] gives back: this node's endpoints for the
    peer, or one of its two refusals. *)
Inductive AvailableEndpoint :=
| endpoints (this_endpoint_pair : EndpointPair) (started_new_transport : bool)
| report_already_connected
| none_available (started_new_transport : bool).

(** ** Member functions of [ManagedConnections] *)

Section ManagedConnections.

(** [true] when the translation unit is compiled with [NDEBUG]. *)
Variable NDEBUG : bool.

(** [Parameters::max_transports] and [detail::Transport::kMaxConnections()],
    both [int]; they are declared in headers that are not under src/. *)
Variable max_transports : Z.
Variable kMaxConnections : Z.

(** [detail::IsValid(const Endpoint&)], defined in utils.cc, not under
    src/. *)
Variable IsValid : Endpoint → bool.

(** The transport object behind each pointer. *)
Variable transports : TransportPtr → Transport.

Definition assert (condition : bool) : M unit :=
  if NDEBUG then skip
  else if condition then skip else abort assertion_failed.

(** [std::find_if] over [pendings_]: position and value of the first
    pending connection to [peer_id], [None] for [pendings_.end()]. *)
Definition FindPendingTransportWithNodeId (peer_id : NodeId)
    (pendings : list PendingConnection) : option (nat * PendingConnection) :=
  list_find (λ element, node_id element = peer_id) pendings.

Definition RemovePending (peer_id : NodeId) : M unit :=
  mc ← get;
  match FindPendingTransportWithNodeId peer_id (pendings_ mc) with
  | Some (itr, _) => modify (set_pendings (delete itr (pendings_ mc)))
  | None => skip
  end.

(** The completion of a pending connection's timer. *)
Definition OnPendingTimeout (operation_aborted : bool) (peer_id : NodeId) : M unit :=
  if operation_aborted then skip else RemovePending peer_id.

Definition AddPending (connection : PendingConnection) : M unit :=
  let peer_id := node_id connection in
  modify (λ mc, set_pendings (pendings_ mc ++ [connection]) mc);;
  emit (Timer_async_wait peer_id).

(** The constructor of [PendingConnection]: [connecting(false)]. *)
Definition new_PendingConnection (node_id_in : NodeId) (transport : TransportPtr)
    : PendingConnection :=
  mkPendingConnection node_id_in transport false.

Definition UpdateIdleTransports (transport : TransportPtr) : M unit :=
  if IsIdle (transports transport) then
    assert (IsAvailable (transports transport));;
    modify (λ mc, set_idle_transports ({[transport]} ∪ idle_transports_ mc) mc)
  else
    modify (λ mc, set_idle_transports (idle_transports_ mc ∖ {[transport]}) mc).

Definition ExistingConnectionAttempt (peer_id : NodeId) (this_endpoint_pair : EndpointPair)
    : M (bool * EndpointPair) :=
  mc ← get;
  match FindPendingTransportWithNodeId peer_id (pendings_ mc) with
  | None => mret (false, this_endpoint_pair)
  | Some (_, existing_attempt) =>
      let t := transports (pending_transport existing_attempt) in
      let this_endpoint_pair := mkEndpointPair (local_endpoint t) (external_endpoint t) in
      assert (IsAvailable t);;
      mret (true, this_endpoint_pair)
  end.

(** The two reference parameters [this_endpoint_pair] and
    [connection_exists] are passed in and returned next to the result. *)
Definition ExistingConnection (peer_id : NodeId) (this_endpoint_pair : EndpointPair)
    (connection_exists : bool) : M (bool * EndpointPair * bool) :=
  mc ← get;
  match connections_ mc !! peer_id with
  | None => mret (false, this_endpoint_pair, connection_exists)
  | Some itr_second =>
      match GetConnection (transports itr_second) peer_id with
      | None =>
          modify (λ mc, set_connections (delete peer_id (connections_ mc)) mc);;
          mret (false, this_endpoint_pair, connection_exists)
      | Some connection =>
          let bootstrap_connection := bool_decide (state connection = kBootstrapping) in
          let unvalidated_connection := bool_decide (state connection = kUnvalidated) in
          if bootstrap_connection || unvalidated_connection then
            let this_endpoint_pair :=
              mkEndpointPair (local_endpoint (transports itr_second))
                             (external_endpoint (transports itr_second)) in
            assert (IsAvailable (transports itr_second));;
            assert (bool_decide
                      (FindPendingTransportWithNodeId peer_id (pendings_ mc) = None));;
            (if bootstrap_connection
             then AddPending (new_PendingConnection peer_id itr_second)
             else skip);;
            mret (true, this_endpoint_pair, false)
          else
            mret (true, this_endpoint_pair, true)
      end
  end.

(** The [while] loop of [SelectIdleTransport]: [in_order] lists the
    transports that are still in [idle_transports_], least pointer
    ([begin()]) first. *)
Fixpoint SelectIdleTransport_loop (peer_id : NodeId) (this_endpoint_pair : EndpointPair)
    (in_order : list TransportPtr) : M (bool * EndpointPair) :=
  match in_order with
  | [] => mret (false, this_endpoint_pair)
  | begin :: rest =>
      if IsAvailable (transports begin) then
        let this_endpoint_pair :=
          mkEndpointPair (local_endpoint (transports begin))
                         (external_endpoint (transports begin)) in
        mc ← get;
        assert (bool_decide
                  (FindPendingTransportWithNodeId peer_id (pendings_ mc) = None));;
        AddPending (new_PendingConnection peer_id begin);;
        mret (true, this_endpoint_pair)
      else
        modify (λ mc, set_idle_transports (idle_transports_ mc ∖ {[begin]}) mc);;
        SelectIdleTransport_loop peer_id this_endpoint_pair rest
  end.

Definition SelectIdleTransport (peer_id : NodeId) (this_endpoint_pair : EndpointPair)
    : M (bool * EndpointPair) :=
  mc ← get;
  SelectIdleTransport_loop peer_id this_endpoint_pair (set_in_order (idle_transports_ mc)).

(** The transport with the least connections, below [kMaxConnections];
    a null pointer is [None]. *)
Definition GetAvailableTransport (mc : ManagedConnections) : option TransportPtr :=
  (foldl (λ '(least_connections, selected_transport) element,
            if (NormalConnectionsCount (transports element.2) <? least_connections)%Z
            then (NormalConnectionsCount (transports element.2), Some element.2)
            else (least_connections, selected_transport))
         (static_cast_size_t kMaxConnections, None)
         (map_in_order (connections_ mc))).2.

Definition SelectAnyTransport (peer_id : NodeId) (this_endpoint_pair : EndpointPair)
    : M (bool * EndpointPair) :=
  '(selected, idle_endpoint_pair) ← SelectIdleTransport peer_id this_endpoint_pair;
  if selected : bool return M (bool * EndpointPair) then mret (true, idle_endpoint_pair)
  else
    mc ← get;
    match GetAvailableTransport mc with
    | None => mret (false, idle_endpoint_pair)
    | Some selected_transport =>
        let this_endpoint_pair :=
          mkEndpointPair (local_endpoint (transports selected_transport))
                         (external_endpoint (transports selected_transport)) in
        assert (IsAvailable (transports selected_transport));;
        assert (bool_decide
                  (FindPendingTransportWithNodeId peer_id (pendings_ mc) = None));;
        AddPending (new_PendingConnection peer_id selected_transport);;
        mret (true, this_endpoint_pair)
    end.

Definition ShouldStartNewTransport (mc : ManagedConnections)
    (peer_endpoint_pair : EndpointPair) : bool :=
  if bool_decide (nat_type_ mc = kSymmetric) &&
     (static_cast_int (Z.of_nat (size (connections_ mc)))
        <? int_mul max_transports kMaxConnections)%Z
  then
    if IsValid (external peer_endpoint_pair) then true
    else negb (IsValid (local peer_endpoint_pair))
  else
    (static_cast_int (Z.of_nat (size (connections_ mc))) <? max_transports)%Z.


Definition DoAdd (peer : Contact) (handler : Functor) : M unit :=
  mc ← get;
  if bool_decide (id peer = this_node_id_ mc) then
    invoke handler (Some operation_not_supported)
  else
    match FindPendingTransportWithNodeId (id peer) (pendings_ mc) with
    | None =>
        if bool_decide (is_Some (connections_ mc !! id peer)) then
          invoke handler (Some already_connected)
        else
          invoke handler (Some operation_not_supported)
    | Some (itr, pending) =>
        if connecting pending then
          invoke handler (Some connection_already_in_progress)
        else
          let selected_transport := pending_transport pending in
          modify (set_pendings
                    (<[itr := mkPendingConnection (node_id pending)
                                (pending_transport pending) true]> (pendings_ mc)));;
          match GetConnection (transports selected_transport) (id peer) with
          | Some connection =>
              if bool_decide (state connection = kBootstrapping) ||
                 (bool_decide (id (chosen_bootstrap_contact_ mc) = id peer) &&
                  bool_decide (state connection = kPermanent))
              then
                (if bool_decide (state connection = kBootstrapping) then
                   let peer_endpoint := Endpoint_default in
                   assert (if IsValid peer_endpoint
                           then bool_decide (peer_endpoint = PeerEndpoint connection)
                           else true)
                 else skip);;
                invoke handler None
              else
                modify (λ mc, set_pendings (delete itr (pendings_ mc)) mc);;
                invoke handler (Some already_connected)
          | None =>
              emit (Transport_Connect selected_transport peer handler)
          end
    end.

Definition DoRemove (peer_id : NodeId) : M unit :=
  mc ← get;
  if bool_decide (peer_id = this_node_id_ mc) then skip
  else
    match connections_ mc !! peer_id with
    | None => skip
    | Some transport_to_close => emit (Transport_CloseConnection transport_to_close peer_id)
    end.

Definition DoSend (peer_id : NodeId) (message : Message) (handler : Functor) : M unit :=
  mc ← get;
  if bool_decide (peer_id = this_node_id_ mc) then
    invoke handler (Some operation_not_supported)
  else
    sent ← match connections_ mc !! peer_id with
           | Some itr_second =>
               emit (Transport_Send itr_second peer_id message handler);;
               mret (Send (transports itr_second) peer_id message)
           | None => mret false
           end;
    if sent : bool then skip
    else
      match handler with
      | Some h =>
          if negb (bool_decide (connections_ mc = ∅)) ||
             negb (bool_decide (idle_transports_ mc = ∅))
          then emit (Handler_invoked h (Some not_connected))
          else emit (Handler_invoked_on_detached_thread h (Some not_connected))
      | None => skip
      end.

(** The block under [#ifndef NDEBUG] that ends [OnConnectionAddedSlot]. *)
Definition erase_unavailable_idle_transports : M unit :=
  if NDEBUG then skip
  else
    modify (λ mc, set_idle_transports
                    (filter (λ itr, IsAvailable (transports itr) = true)
                            (idle_transports_ mc)) mc).

(** The reference parameter [is_duplicate_normal_connection] is the
    result. *)
Definition OnConnectionAddedSlot (peer_id : NodeId) (transport : TransportPtr)
    (temporary_connection : bool) : M bool :=
  is_duplicate_normal_connection ←
    (if temporary_connection then
       UpdateIdleTransports transport;;
       mret false
     else
       RemovePending peer_id;;
       mc ← get;
       match connections_ mc !! peer_id with
       | None =>
           modify (set_connections (<[peer_id := transport]> (connections_ mc)));;
           modify (λ mc, set_idle_transports (idle_transports_ mc ∖ {[transport]}) mc);;
           mret false
       | Some _ =>
           UpdateIdleTransports transport;;
           mret true
       end);
  erase_unavailable_idle_transports;;
  mret is_duplicate_normal_connection.

Definition OnConnectionLostSlot (peer_id : NodeId) (transport : TransportPtr)
    (temporary_connection : bool) : M unit :=
  UpdateIdleTransports transport;;
  if temporary_connection then skip
  else
    RemovePending peer_id;;
    mc ← get;
    match connections_ mc !! peer_id with
    | Some itr_second =>
        (if bool_decide (itr_second ≠ transport) then assert false else skip);;
        modify (set_connections (delete peer_id (connections_ mc)));;
        (if bool_decide (peer_id = id (chosen_bootstrap_contact_ mc))
         then modify (set_chosen_bootstrap_contact Contact_default)
         else skip);;
        match listener_ mc with
        | Some listener => emit (Listener_ConnectionLost listener peer_id)
        | None => skip
        end
    | None => skip
    end.

(** The lambda [on_bootstrap] of [StartNewTransport]; [transport],
    [external_address] and [handler] are its captures. *)
Definition on_bootstrap (transport : TransportPtr) (external_address : Address)
    (handler : Functor) (bootstrap_result : ReturnCode) (chosen_contact : Contact)
    : M unit :=
  if bool_decide (bootstrap_result ≠ kSuccess) then
    emit (Transport_Close transport);;
    invoke_bootstrap handler (Some failed_to_bootstrap) chosen_contact
  else
    mc ← get;
    (if NodeId_IsValid (id (chosen_bootstrap_contact_ mc))
     then modify (set_chosen_bootstrap_contact chosen_contact)
     else skip);;
    (if negb (IsValid (external_endpoint (transports transport))) &&
        negb (is_unspecified external_address)
     then emit (Transport_SetBestGuessExternalEndpoint transport
                  (mkEndpoint external_address
                              (port (local_endpoint (transports transport)))))
     else skip);;
    if bool_decide (bootstrap_result ≠ kSuccess) then
      invoke_bootstrap handler (Some failed_to_bootstrap) chosen_contact
    else
      invoke_bootstrap handler None chosen_contact.

(** Modelled from the spec: [GetAvailableEndpoint] is defined in
    managed_connections.h, which is not under src/.  These are steps
    3 to 5 of section 4.2 of the specification: a new transport is
    started asynchronously when [ShouldStartNewTransport] says so, and
    an existing transport is picked meanwhile.  The specification does
    not name the result when no transport can be picked; it is
    [none_available] here. *)
Definition SelectTransportFor (peer_id : NodeId) (peer_hint : EndpointPair)
    (this_endpoint_pair : EndpointPair) : M AvailableEndpoint :=
  mc ← get;
  let started_new_transport := ShouldStartNewTransport mc peer_hint in
  (if started_new_transport then emit StartNewTransport_posted else skip);;
  '(selected, this_endpoint_pair) ← SelectAnyTransport peer_id this_endpoint_pair;
  if selected : bool
  then mret (endpoints this_endpoint_pair started_new_transport)
  else mret (none_available started_new_transport).

(** Modelled from the spec: [GetAvailableEndpoint] is defined in
    managed_connections.h, which is not under src/.  These are steps
    1 and 2 of section 4.2 of the specification, made of the helpers of
    managed_connections.cc above, followed by steps 3 to 5. *)
Definition GetAvailableEndpoint (peer_id : NodeId) (peer_hint : EndpointPair)
    : M AvailableEndpoint :=
  '(attempt, this_endpoint_pair) ← ExistingConnectionAttempt peer_id EndpointPair_default;
  if attempt : bool return M AvailableEndpoint then
    mret (endpoints this_endpoint_pair false)
  else
    '(existing, this_endpoint_pair, connection_exists) ←
      ExistingConnection peer_id this_endpoint_pair false;
    if existing : bool return M AvailableEndpoint then
      if connection_exists : bool
      then mret report_already_connected
      else mret (endpoints this_endpoint_pair false)
    else
      SelectTransportFor peer_id peer_hint this_endpoint_pair.

End ManagedConnections.

(** ** Further member functions *)

Section Lifecycle.

Variable NDEBUG : bool.
Variable IsValid : Endpoint → bool.
Variable transports : TransportPtr → Transport.

(** Three codes of return_codes.h, which is not under src/. *)
Variable kInvalidParameter : ReturnCode.
Variable kNoBootstrapEndpoints : ReturnCode.
Variable kFailedToGetLocalAddress : ReturnCode.

(** [listener] is a [std::shared_ptr<Listener>]; a null one is [None]. *)
Definition CheckBootstrappingParameters (bootstrap_list : list Contact)
    (listener : option Listener) (this_node_id : NodeId) : ReturnCode :=
  match listener with
  | None => kInvalidParameter
  | Some _ =>
      if negb (NodeId_IsValid this_node_id) then kInvalidParameter
      else if bool_decide (bootstrap_list = []) then kNoBootstrapEndpoints
      else kSuccess
  end.

(** [GetLocalIp] is what the call [GetLocalIp()] of utils.cc returns.  The
    member [local_ip_], which the function assigns on every path, and the
    reference parameter [local_endpoint] are returned next to the code. *)
Definition TryToDetermineLocalEndpoint (GetLocalIp : Address) (local_endpoint : Endpoint)
    : ReturnCode * Address * Endpoint :=
  let zero_state := IsValid local_endpoint in
  if zero_state then
    (kSuccess, address local_endpoint, local_endpoint)
  else
    let local_ip_ := GetLocalIp in
    if is_unspecified local_ip_ then (kFailedToGetLocalAddress, local_ip_, local_endpoint)
    else (kSuccess, local_ip_, mkEndpoint local_ip_ 0%N).

(** The scope of [StartNewTransport] that holds the lock: for each idle
    transport, in the order of the set, the bootstrap contacts whose
    local endpoint is that of the transport are erased
    ([std::remove_if] keeps the order of the others). *)
Definition erase_idle_endpoints (mc : ManagedConnections) (bootstrap_list : list Contact)
    : list Contact :=
  foldl (λ bootstrap_list element,
           filter (λ entry, local (endpoint_pair entry) ≠
                            local_endpoint (transports element))
                  bootstrap_list)
        bootstrap_list (set_in_order (idle_transports_ mc)).

(** [Close()] on each transport of a range, first to last. *)
Fixpoint Close_each (range : list TransportPtr) : M unit :=
  match range with
  | [] => skip
  | transport :: rest => emit (Transport_Close transport);; Close_each rest
  end.

(** The first loop of [ClearConnectionsAndIdleTransports].  The
    assertion dereferences the connection: on a null one the debug build
    stops as well. *)
Fixpoint Close_bootstrap_connections (range : list (NodeId * TransportPtr)) : M unit :=
  match range with
  | [] => skip
  | connection_details :: rest =>
      assert NDEBUG
        (match GetConnection (transports connection_details.2) connection_details.1 with
         | Some connection => bool_decide (state connection = kBootstrapping)
         | None => false
         end);;
      emit (Transport_Close connection_details.2);;
      Close_bootstrap_connections rest
  end.

Definition ClearConnectionsAndIdleTransports : M unit :=
  mc ← get;
  (if negb (bool_decide (connections_ mc = ∅)) then
     Close_bootstrap_connections (map_in_order (connections_ mc));;
     modify (set_connections ∅)
   else skip);;
  modify (set_pendings []);;
  Close_each (set_in_order (idle_transports_ mc));;
  modify (set_idle_transports ∅).

(** The scope of the destructor that holds the lock; the destructor
    then stops the I/O service. *)
Definition destructor_scope : M unit :=
  mc ← get;
  Close_each ((map_in_order (connections_ mc)).*2);;
  modify (set_connections ∅);;
  Close_each (pending_transport <$> pendings_ mc);;
  modify (set_pendings []);;
  Close_each (set_in_order (idle_transports_ mc));;
  modify (set_idle_transports ∅).

(** The reference parameter [another_external_port] is the first
    component of the result; the second is the [Ping] the function asks
    of the transport it found (to [peer_id] at [peer_endpoint], with a
    default-constructed public key and a handler that does nothing). *)
Definition OnNatDetectionRequestedSlot (this_local_endpoint : Endpoint) (peer_id : NodeId)
    (peer_endpoint : Endpoint) : M (N * option (TransportPtr * NodeId * Endpoint)) :=
  mc ← get;
  if bool_decide (nat_type_ mc = kUnknown) || bool_decide (nat_type_ mc = kSymmetric) then
    mret (0%N, None)
  else
    match list_find (λ element : NodeId * TransportPtr,
                       this_local_endpoint ≠ local_endpoint (transports element.2))
                    (map_in_order (connections_ mc)) with
    | None => mret (0%N, None)
    | Some (_, itr) =>
        let another_external_port := port (external_endpoint (transports itr.2)) in
        assert NDEBUG false;;
        mret (another_external_port, Some (itr.2, peer_id, peer_endpoint))
    end.

End Lifecycle.

(** ** Contacts to bootstrap a new transport from *)

(** The locals of [GetBootstrapEndpoints].  [non_duplicates] is a
    [std::set<Endpoint>] that is only inserted into and tested for
    membership; [bootstrap_list] and [this_external_address] are the two
    reference parameters. *)
Record BootstrapEndpoints := mkBootstrapEndpoints {
  bootstrap_list : list Contact;
  secondary_list : list Contact;
  non_duplicates : list Endpoint;
  this_external_address : Address;
  external_address_consistent : bool
}.

Section BootstrapEndpoints.

Variable transports : TransportPtr → Transport.

(** [detail::OnPrivateNetwork] of utils.cc. *)
Variable OnPrivateNetwork : Endpoint → bool.

(** [Socket().PeerNodeId()] and [Socket().PeerPublicKey()] of the
    connection a transport has to a peer, and the transport's
    [ThisEndpointAsSeenByPeer]. *)
Variable PeerNodeId : TransportPtr → NodeId → NodeId.
Variable PeerPublicKey : TransportPtr → NodeId → PublicKey.
Variable ThisEndpointAsSeenByPeer : TransportPtr → NodeId → Endpoint.

(** The constructor of [Contact] that takes one endpoint, of contact.h. *)
Variable Contact_of_endpoint : NodeId → Endpoint → PublicKey → Contact.

(** [std::random_shuffle]; the first argument tells the two calls apart. *)
Variable random_shuffle : nat → list Contact → list Contact.

(** The body of the loop over [connections_]. *)
Definition GetBootstrapEndpoints_body (locals : BootstrapEndpoints)
    (element : NodeId * TransportPtr) : BootstrapEndpoints :=
  match GetConnection (transports element.2) element.1 with
  | None => locals
  | Some connection =>
      if bool_decide (PeerEndpoint connection ∈ non_duplicates locals) then locals
      else
        let non_duplicates := PeerEndpoint connection :: non_duplicates locals in
        let peer :=
          Contact_of_endpoint (PeerNodeId element.2 element.1) (PeerEndpoint connection)
            (PeerPublicKey element.2 element.1) in
        if OnPrivateNetwork (PeerEndpoint connection) then
          mkBootstrapEndpoints (bootstrap_list locals) (secondary_list locals ++ [peer])
            non_duplicates (this_external_address locals)
            (external_address_consistent locals)
        else
          let this_endpoint_as_seen_by_peer :=
            ThisEndpointAsSeenByPeer element.2 element.1 in
          if is_unspecified (this_external_address locals) then
            mkBootstrapEndpoints (bootstrap_list locals ++ [peer]) (secondary_list locals)
              non_duplicates (address this_endpoint_as_seen_by_peer)
              (external_address_consistent locals)
          else if bool_decide (this_external_address locals ≠
                               address this_endpoint_as_seen_by_peer) then
            mkBootstrapEndpoints (bootstrap_list locals ++ [peer]) (secondary_list locals)
              non_duplicates (this_external_address locals) false
          else
            mkBootstrapEndpoints (bootstrap_list locals ++ [peer]) (secondary_list locals)
              non_duplicates (this_external_address locals)
              (external_address_consistent locals)
  end.

(** The two reference parameters are returned. *)
Definition GetBootstrapEndpoints (mc : ManagedConnections) (bootstrap_list_in : list Contact)
    (this_external_address_in : Address) : list Contact * Address :=
  let locals :=
    foldl GetBootstrapEndpoints_body
      (mkBootstrapEndpoints bootstrap_list_in [] [] this_external_address_in true)
      (map_in_order (connections_ mc)) in
  let this_external_address :=
    if external_address_consistent locals then this_external_address locals
    else Address_default in
  (random_shuffle 0 (bootstrap_list locals) ++ random_shuffle 1 (secondary_list locals),
   this_external_address).

End BootstrapEndpoints.

(** ** Vocabulary of the statements *)

(** [pendings_] once the first pending connection to [peer_id], if there
    is one, has been erased. *)
Definition erase_pending (peer_id : NodeId) (pendings : list PendingConnection)
    : list PendingConnection :=
  match FindPendingTransportWithNodeId peer_id pendings with
  | Some (itr, _) => delete itr pendings
  | None => pendings
  end.

(** [idle_transports_] once the idle status of [transport] has been
    refreshed. *)
Definition refresh_idle (transports : TransportPtr → Transport) (transport : TransportPtr)
    (idle : gset TransportPtr) : gset TransportPtr :=
  if IsIdle (transports transport) then {[transport]} ∪ idle else idle ∖ {[transport]}.

(** [idle_transports_] once the block under [#ifndef NDEBUG] that ends
    [OnConnectionAddedSlot] has run: a debug build keeps the available
    transports only. *)
Definition available_in_debug (NDEBUG : bool) (transports : TransportPtr → Transport)
    (idle : gset TransportPtr) : gset TransportPtr :=
  if NDEBUG then idle else filter (λ itr, IsAvailable (transports itr) = true) idle.

(** The endpoint pair of a transport: [local_endpoint()] and
    [external_endpoint()]. *)
Definition endpoints_of (transports : TransportPtr → Transport) (t : TransportPtr)
    : EndpointPair :=
  mkEndpointPair (local_endpoint (transports t)) (external_endpoint (transports t)).

(** Directory invariant 1, for the pending connections: at most one
    pending connection per peer. *)
Definition one_pending_per_peer (pendings : list PendingConnection) : Prop :=
  NoDup (node_id <$> pendings).

(** Directory invariant 2: the idle transports are available. *)
Definition idle_transports_available (transports : TransportPtr → Transport)
    (mc : ManagedConnections) : Prop :=
  ∀ t, t ∈ idle_transports_ mc → IsAvailable (transports t) = true.

(** Directory invariant 6: this node is neither a key of [connections_]
    nor the peer of a pending connection. *)
Definition this_node_not_in_directory (mc : ManagedConnections) : Prop :=
  connections_ mc !! this_node_id_ mc = None ∧
  ∀ pending, pending ∈ pendings_ mc → node_id pending ≠ this_node_id_ mc.

(** In a debug build, what [UpdateIdleTransports(transport)] asserts. *)
Definition idle_implies_available (NDEBUG : bool) (transports : TransportPtr → Transport)
    (transport : TransportPtr) : Prop :=
  NDEBUG = false →
  IsIdle (transports transport) = true → IsAvailable (transports transport) = true.

(** A connection of [connections_] that its transport has, in state
    [kBootstrapping]. *)
Definition is_bootstrap_connection (transports : TransportPtr → Transport)
    (connection_details : NodeId * TransportPtr) : Prop :=
  ∃ connection,
    GetConnection (transports connection_details.2) connection_details.1 =
      Some connection ∧
    state connection = kBootstrapping.

(** An entry of [connections_] whose transport has the connection, to a
    peer on a public network. *)
Definition public_peer (transports : TransportPtr → Transport)
    (OnPrivateNetwork : Endpoint → bool) (element : NodeId * TransportPtr) : Prop :=
  ∃ connection,
    GetConnection (transports element.2) element.1 = Some connection ∧
    OnPrivateNetwork (PeerEndpoint connection) = false.

(** The same, to a peer on a private network. *)
Definition private_peer (transports : TransportPtr → Transport)
    (OnPrivateNetwork : Endpoint → bool) (element : NodeId * TransportPtr) : Prop :=
  ∃ connection,
    GetConnection (transports element.2) element.1 = Some connection ∧
    OnPrivateNetwork (PeerEndpoint connection) = true.

(** [contact] is the contact [GetBootstrapEndpoints] builds for an entry
    of [connections_]. *)
Definition contact_of (transports : TransportPtr → Transport)
    (PeerNodeId : TransportPtr → NodeId → NodeId)
    (PeerPublicKey : TransportPtr → NodeId → PublicKey)
    (Contact_of_endpoint : NodeId → Endpoint → PublicKey → Contact)
    (element : NodeId * TransportPtr) (contact : Contact) : Prop :=
  ∃ connection,
    GetConnection (transports element.2) element.1 = Some connection ∧
    contact = Contact_of_endpoint (PeerNodeId element.2 element.1) (PeerEndpoint connection)
                (PeerPublicKey element.2 element.1).

(** The address under which the peer of an entry sees this node. *)
Definition seen_address (ThisEndpointAsSeenByPeer : TransportPtr → NodeId → Endpoint)
    (element : NodeId * TransportPtr) : Address :=
  address (ThisEndpointAsSeenByPeer element.2 element.1).

(** No entry of [range] under another key has a connection to the peer
    endpoint of [element]. *)
Definition unshared_endpoint (transports : TransportPtr → Transport)
    (range : list (NodeId * TransportPtr)) (element : NodeId * TransportPtr) : Prop :=
  ∀ element' connection connection',
    element' ∈ range →
    GetConnection (transports element.2) element.1 = Some connection →
    GetConnection (transports element'.2) element'.1 = Some connection' →
    PeerEndpoint connection = PeerEndpoint connection' →
    element'.1 = element.1.

(** ** Example directories *)

(** Transport [5] hosts an unvalidated connection to peer [1], a
    bootstrapping connection to peer [2] and a permanent connection to
    peer [3], the only peer it accepts messages for; every other pointer
    is an idle, available transport without connections. *)
Definition example_transports (t : TransportPtr) : Transport :=
  if (t =? 5)%N then
    mkTransport (mkEndpoint 10%N 5000%N) (mkEndpoint 20%N 6000%N) false true 2%Z
      (λ peer_id,
         if (peer_id =? 1)%N
         then Some (mkConnection kUnvalidated (mkEndpoint 30%N 7000%N))
         else if (peer_id =? 2)%N
         then Some (mkConnection kBootstrapping (mkEndpoint 31%N 7001%N))
         else if (peer_id =? 3)%N
         then Some (mkConnection kPermanent (mkEndpoint 32%N 7002%N))
         else None)
      (λ peer_id _, (peer_id =? 3)%N)
  else
    mkTransport (mkEndpoint 10%N (5000 + t)%N) (mkEndpoint 20%N (6000 + t)%N) true true 0%Z
      (λ _, None) (λ _ _, false).

(** A port above 1024 on a specified address. *)
Definition example_IsValid (e : Endpoint) : bool :=
  (1024 <? port e)%N && negb (is_unspecified (address e)).

(** This node is [9]; it is connected to peers [1], [2] and [3] over
    transport [5] and has not recorded a bootstrap contact. *)
Definition example_mc : ManagedConnections :=
  mkManagedConnections (Some 1%N) 9%N Contact_default
    (<[1%N := 5%N]> (<[2%N := 5%N]> (<[3%N := 5%N]> ∅))) [] ∅ kSymmetric.

Definition example_contact (peer_id : NodeId) : Contact :=
  mkContact peer_id
    (mkEndpointPair (mkEndpoint 40%N 8000%N) (mkEndpoint 50%N 9000%N)) 77%N.

(** The same node with one idle transport, [7]. *)
Definition example_mc_idle : ManagedConnections :=
  set_idle_transports {[7%N]} example_mc.

(** The same node after it reserved an endpoint for peer [2] on
    transport [5], which hosts the bootstrap connection to that peer. *)
Definition example_mc_pending : ManagedConnections :=
  set_pendings [mkPendingConnection 2%N 5%N false] example_mc_idle.

(** The same node while it connects to peer [4] over transport [7]. *)
Definition example_mc_connecting : ManagedConnections :=
  set_pendings [mkPendingConnection 4%N 7%N true] example_mc_idle.

(** The same node once peer [3] is its recorded bootstrap contact. *)
Definition example_mc_bootstrapped : ManagedConnections :=
  set_chosen_bootstrap_contact (example_contact 3%N) example_mc.

(** The same transports once transport [6] has been closed: it still
    counts as idle and is not available any more. *)
Definition example_transports_closed (t : TransportPtr) : Transport :=
  if (t =? 6)%N then
    mkTransport (mkEndpoint 10%N 5006%N) (mkEndpoint 20%N 6006%N) true false 0%Z
      (λ _, None) (λ _ _, false)
  else example_transports t.

(** Node [9] with the two idle transports [6] and [7]. *)
Definition example_mc_two_idle : ManagedConnections :=
  set_idle_transports {[6%N; 7%N]} example_mc.

(** [OnConnectionAddedSlot] for a temporary connection, as the
    specification words it: only the idle status of [transport] is
    refreshed. *)
Definition only_refreshes_idle_status (NDEBUG : bool) (transports : TransportPtr → Transport)
    (peer_id : NodeId) (transport : TransportPtr) (mc : ManagedConnections) : Prop :=
  OnConnectionAddedSlot NDEBUG transports peer_id transport true mc =
    Returns false
      (set_idle_transports
         (refresh_idle transports transport (idle_transports_ mc)) mc) [].

(** The second step of [GetAvailableEndpoint], as the specification
    words it for a bootstrapping or unvalidated connection: a new
    pending connection on the transport of the entry is there after the
    call, and the transport's endpoints are returned. *)
Definition materializes_pending (NDEBUG : bool) (transports : TransportPtr → Transport)
    (peer_id : NodeId) (mc : ManagedConnections) : Prop :=
  ∃ itr_second mc' calls,
    connections_ mc !! peer_id = Some itr_second ∧
    ExistingConnection NDEBUG transports peer_id EndpointPair_default false mc =
      Returns (true, endpoints_of transports itr_second, false) mc' calls ∧
    new_PendingConnection peer_id itr_second ∈ pendings_ mc'.

(** Peer [2] is on a private network; every peer sees this node at the
    external endpoint of transport [5]. *)
Definition example_OnPrivateNetwork (e : Endpoint) : bool := (address e =? 31)%N.

Definition example_ThisEndpointAsSeenByPeer (t : TransportPtr) (peer_id : NodeId)
    : Endpoint :=
  external_endpoint (example_transports t).

Definition example_PeerNodeId (t : TransportPtr) (peer_id : NodeId) : NodeId := peer_id.

Definition example_PeerPublicKey (t : TransportPtr) (peer_id : NodeId) : PublicKey := 77%N.

Definition example_Contact_of_endpoint (peer_id : NodeId) (e : Endpoint) (key : PublicKey)
    : Contact :=
  mkContact peer_id (mkEndpointPair e e) key.

(** A shuffle that leaves the list as it is. *)
Definition example_random_shuffle (call : nat) (l : list Contact) : list Contact := l.

(** [GetBootstrapEndpoints] at the example directory. *)
Definition example_GetBootstrapEndpoints (bootstrap_list_in : list Contact)
    (this_external_address_in : Address) : list Contact * Address :=
  GetBootstrapEndpoints example_transports example_OnPrivateNetwork example_PeerNodeId
    example_PeerPublicKey example_ThisEndpointAsSeenByPeer example_Contact_of_endpoint
    example_random_shuffle example_mc bootstrap_list_in this_external_address_in.

(** * Properties *)

(** Running a member function on a directory. *)
Ltac run :=
  unfold mbind, M_bind, mret, M_ret, get, modify, emit, skip, abort, invoke,
    invoke_bootstrap; cbn.

Ltac crunch :=
  repeat first
    [ progress run
    | progress simplify_eq
    | case_bool_decide
    | case_match ].

(** ** Erasing a pending connection *)

Lemma erase_pending_cons (p : NodeId) (x : PendingConnection)
    (l : list PendingConnection) :
  erase_pending p (x :: l) =
  if decide (node_id x = p) then l else x :: erase_pending p l.
Proof.
  unfold erase_pending, FindPendingTransportWithNodeId. cbn.
  case_decide; [done |].
  destruct (list_find _ l) as [[i y] |]; done.
Qed.

Lemma filter_other_peers_id (p : NodeId) (l : list PendingConnection) :
  p ∉ node_id <$> l → filter (λ pending, node_id pending ≠ p) l = l.
Proof.
  induction l as [| x l IH]; [done |].
  rewrite fmap_cons, not_elem_of_cons. intros [Hx Hl].
  rewrite filter_cons_True by done. by rewrite IH.
Qed.

(** With one pending connection per peer, erasing the first one to [p]
    erases every one to [p]. *)
Lemma erase_pending_filter (p : NodeId) (l : list PendingConnection) :
  one_pending_per_peer l →
  erase_pending p l = filter (λ pending, node_id pending ≠ p) l.
Proof.
  unfold one_pending_per_peer.
  induction l as [| x l IH]; [done |].
  rewrite fmap_cons, NoDup_cons. intros [Hx Hl].
  rewrite erase_pending_cons. case_decide as Hp.
  - rewrite filter_cons_False by (intros ?; done).
    subst p. by rewrite filter_other_peers_id.
  - rewrite filter_cons_True by done. by rewrite IH.
Qed.

Lemma erase_pending_gone (p : NodeId) (l : list PendingConnection) :
  one_pending_per_peer l →
  ∀ pending, pending ∈ erase_pending p l → node_id pending ≠ p.
Proof.
  intros Hl pending. rewrite erase_pending_filter by done.
  rewrite list_elem_of_filter. tauto.
Qed.

(** Pending connections to other peers stay. *)
Lemma erase_pending_others (p : NodeId) (l : list PendingConnection)
    (pending : PendingConnection) :
  node_id pending ≠ p → pending ∈ erase_pending p l ↔ pending ∈ l.
Proof.
  intros Hne. induction l as [| x l IH]; [done |].
  rewrite erase_pending_cons. case_decide as Hp.
  - rewrite elem_of_cons. split; [tauto |]. intros [-> | ?]; [congruence | done].
  - rewrite !elem_of_cons, IH. done.
Qed.

(** ** Finding a pending connection *)

(** A pending connection appended for a peer that had none is the one
    that is found. *)
Lemma find_pending_app_new (p : NodeId) (l : list PendingConnection) (t : TransportPtr) :
  FindPendingTransportWithNodeId p l = None →
  FindPendingTransportWithNodeId p (l ++ [new_PendingConnection p t]) =
  Some (length l, new_PendingConnection p t).
Proof.
  unfold FindPendingTransportWithNodeId. intros Hnone.
  apply list_find_None in Hnone.
  apply list_find_Some. split_and!.
  - by rewrite lookup_app_r, Nat.sub_diag.
  - done.
  - intros j y Hj Hlt. rewrite lookup_app_l in Hj by done.
    rewrite Forall_forall in Hnone. apply Hnone. by eapply list_elem_of_lookup_2.
Qed.

(** Overwriting the pending connection that is found, with one to the
    same peer. *)
Lemma find_pending_insert (p : NodeId) (l : list PendingConnection) (itr : nat)
    (pending pending' : PendingConnection) :
  FindPendingTransportWithNodeId p l = Some (itr, pending) →
  node_id pending' = p →
  FindPendingTransportWithNodeId p (<[itr := pending']> l) = Some (itr, pending').
Proof.
  unfold FindPendingTransportWithNodeId. intros Hf Hid.
  apply list_find_Some in Hf as (Hl & _ & Hbefore).
  apply list_find_Some. split_and!.
  - apply list_lookup_insert_eq. by eapply lookup_lt_Some.
  - done.
  - intros j y Hj Hlt. rewrite list_lookup_insert_ne in Hj by lia. by eapply Hbefore.
Qed.

Lemma delete_insert_same {A} (l : list A) (i : nat) (x : A) :
  delete i (<[i := x]> l) = delete i l.
Proof.
  revert i. induction l as [| y l IH]; intros [| i]; cbn; try done.
  by rewrite IH.
Qed.

(** ** Sequences of steps *)

(** The first step of a sequence, once its outcome is known. *)
Lemma bind_run {A B : Type} (m : M A) (f : A → M B) (mc : ManagedConnections)
    (a : A) (mc1 : ManagedConnections) (calls1 : list Call) :
  m mc = Returns a mc1 calls1 →
  (m ≫= f) mc =
  match f a mc1 with
  | Returns b mc2 calls2 => Returns b mc2 (calls1 ++ calls2)
  | Aborts e => Aborts e
  end.
Proof. intros Hm. unfold mbind, M_bind. by rewrite Hm. Qed.

(** A sequence that returns: so did its first step. *)
Lemma bind_Returns_inv {A B : Type} (m : M A) (f : A → M B) (mc : ManagedConnections)
    (b : B) (mc2 : ManagedConnections) (calls : list Call) :
  (m ≫= f) mc = Returns b mc2 calls →
  ∃ a mc1 calls1 calls2,
    m mc = Returns a mc1 calls1 ∧ f a mc1 = Returns b mc2 calls2 ∧
    calls = calls1 ++ calls2.
Proof.
  unfold mbind, M_bind. destruct (m mc) as [a mc1 calls1 |]; [| done].
  destruct (f a mc1) as [b' mc2' calls2 |] eqn:Hf; [| done].
  intros [= -> -> <-]. eauto 10.
Qed.

Section Properties.

Variable NDEBUG : bool.
Variable max_transports : Z.
Variable kMaxConnections : Z.
Variable IsValid : Endpoint → bool.
Variable transports : TransportPtr → Transport.

Lemma static_cast_int_small (n : Z) :
  (0 ≤ n < 2 ^ 31)%Z → static_cast_int n = n.
Proof.
  intros Hn. unfold static_cast_int.
  rewrite Z.mod_small; lia.
Qed.

(** A product that fits an [int] is exact. *)
Lemma int_mul_exact (a b : Z) :
  (- 2 ^ 31 ≤ a * b < 2 ^ 31)%Z → int_mul a b = (a * b)%Z.
Proof.
  intros Hfit. unfold int_mul.
  rewrite Z.mod_small; lia.
Qed.


(** C5. [ShouldStartNewTransport(peer_hint)]: under symmetric NAT the
    answer is [true] exactly when [|connections| < max_transports *
    K_max] and the hint's external endpoint is valid or else its local
    endpoint is invalid; under any other NAT type it is [true] exactly
    when [|connections| < max_transports].  [K_max] is a positive
    constant, and the product [max_transports * K_max] and the size of
    the map fit an [int]. *)
Theorem ShouldStartNewTransport_spec (mc : ManagedConnections)
    (peer_hint : EndpointPair) :
  (1 ≤ kMaxConnections)%Z →
  (- 2 ^ 31 ≤ max_transports * kMaxConnections < 2 ^ 31)%Z →
  (Z.of_nat (size (connections_ mc)) < 2 ^ 31)%Z →
  (nat_type_ mc = kSymmetric →
     ShouldStartNewTransport max_transports kMaxConnections IsValid mc peer_hint = true ↔
     (Z.of_nat (size (connections_ mc)) < max_transports * kMaxConnections)%Z ∧
     (IsValid (external peer_hint) = true ∨
      IsValid (external peer_hint) = false ∧ IsValid (local peer_hint) = false)) ∧
  (nat_type_ mc ≠ kSymmetric →
     ShouldStartNewTransport max_transports kMaxConnections IsValid mc peer_hint = true ↔
     (Z.of_nat (size (connections_ mc)) < max_transports)%Z).
Proof.
  intros HK Hproduct Hsize. unfold ShouldStartNewTransport.
  rewrite static_cast_int_small by lia.
  rewrite int_mul_exact by done.
  split; intros Hnat.
  - rewrite bool_decide_eq_true_2 by done. cbn.
    destruct (Z.ltb_spec (Z.of_nat (size (connections_ mc)))
                (max_transports * kMaxConnections)) as [Hlt | Hge].
    + destruct (IsValid (external peer_hint)); [intuition auto |].
      destruct (IsValid (local peer_hint)); cbn; intuition congruence.
    + rewrite Z.ltb_lt. split; [nia | lia].
  - rewrite bool_decide_eq_false_2 by done. cbn. apply Z.ltb_lt.
Qed.

(** With [max_transports = 4] and [K_max = 64], under symmetric NAT and
    for a hint with a valid external endpoint, new transports are
    started until there are 256 connections. *)
Lemma ShouldStartNewTransport_symmetric_expansion (mc : ManagedConnections)
    (peer_hint : EndpointPair) :
  nat_type_ mc = kSymmetric →
  IsValid (external peer_hint) = true →
  (Z.of_nat (size (connections_ mc)) < 2 ^ 31)%Z →
  ShouldStartNewTransport 4 64 IsValid mc peer_hint = true ↔
  size (connections_ mc) < 256.
Proof.
  intros Hnat Hvalid Hsize. unfold ShouldStartNewTransport.
  rewrite static_cast_int_small by lia.
  rewrite int_mul_exact by lia.
  rewrite bool_decide_eq_true_2 by done. cbn. rewrite Hvalid.
  destruct (Z.ltb_spec (Z.of_nat (size (connections_ mc))) (4 * 64)) as [Hlt | Hge].
  - split; [lia | done].
  - rewrite Z.ltb_lt. lia.
Qed.

(** When the product overflows to a negative [int], the test under
    symmetric NAT fails whatever the size of the map is, and the answer
    is the one of the other NAT types. *)
Lemma ShouldStartNewTransport_overflow (mc : ManagedConnections)
    (peer_hint : EndpointPair) :
  (2 ^ 31 ≤ max_transports * kMaxConnections < 2 ^ 32)%Z →
  (Z.of_nat (size (connections_ mc)) < 2 ^ 31)%Z →
  ShouldStartNewTransport max_transports kMaxConnections IsValid mc peer_hint =
    (Z.of_nat (size (connections_ mc)) <? max_transports)%Z.
Proof.
  intros Hproduct Hsize. unfold ShouldStartNewTransport.
  rewrite static_cast_int_small by lia.
  assert (int_mul max_transports kMaxConnections =
          max_transports * kMaxConnections - 2 ^ 32)%Z as ->.
  { unfold int_mul.
    replace (max_transports * kMaxConnections + 2 ^ 31)%Z
      with (max_transports * kMaxConnections - 2 ^ 31 + 1 * 2 ^ 32)%Z by lia.
    rewrite Z.mod_add by lia. rewrite Z.mod_small; lia. }
  rewrite (proj2 (Z.ltb_ge _ _)) by lia.
  by rewrite andb_false_r.
Qed.

(** *** The bootstrap callback *)

(** A successful bootstrap: the recorded contact is replaced when it
    is valid and kept when it is not; the caller's handler gets the
    chosen contact. *)
Lemma on_bootstrap_success (transport : TransportPtr) (external_address : Address)
    (h : N) (chosen_contact : Contact) (mc : ManagedConnections) :
  on_bootstrap IsValid transports transport external_address (Some h) kSuccess
    chosen_contact mc =
  Returns tt
    (if NodeId_IsValid (id (chosen_bootstrap_contact_ mc))
     then set_chosen_bootstrap_contact chosen_contact mc else mc)
    ((if negb (IsValid (external_endpoint (transports transport))) &&
         negb (is_unspecified external_address)
      then [Transport_SetBestGuessExternalEndpoint transport
              (mkEndpoint external_address
                 (port (local_endpoint (transports transport))))]
      else []) ++
     [BootstrapHandler_invoked h None chosen_contact]).
Proof. unfold on_bootstrap. crunch; reflexivity. Qed.

(** No run of the callback makes an invalid recorded contact valid. *)
Lemma on_bootstrap_never_records (transport : TransportPtr) (external_address : Address)
    (handler : Functor) (bootstrap_result : ReturnCode) (chosen_contact : Contact)
    (mc mc' : ManagedConnections) (calls : list Call) :
  NodeId_IsValid (id (chosen_bootstrap_contact_ mc)) = false →
  on_bootstrap IsValid transports transport external_address handler bootstrap_result
    chosen_contact mc = Returns tt mc' calls →
  mc' = mc.
Proof.
  intros Hinvalid. unfold on_bootstrap. destruct handler; crunch; congruence.
Qed.

(** *** An existing connection to the peer *)

(** C2, as the code has it.  When [connections_] has an entry for the
    peer and the transport has the connection: in state
    [kBootstrapping] a new pending connection on that same transport
    is appended and the transport's endpoints are returned; in state
    [kUnvalidated] the transport's endpoints are returned and no
    pending connection is made; in any other state the answer is that
    the connection exists.  In a debug build the two assertions of the
    first two cases are assumed to hold. *)
Theorem ExistingConnection_by_state (peer_id : NodeId) (this_endpoint_pair : EndpointPair)
    (connection_exists : bool) (mc : ManagedConnections) (itr_second : TransportPtr)
    (connection : Connection) :
  connections_ mc !! peer_id = Some itr_second →
  GetConnection (transports itr_second) peer_id = Some connection →
  (NDEBUG = false →
   state connection = kBootstrapping ∨ state connection = kUnvalidated →
   IsAvailable (transports itr_second) = true ∧
   FindPendingTransportWithNodeId peer_id (pendings_ mc) = None) →
  ExistingConnection NDEBUG transports peer_id this_endpoint_pair connection_exists mc =
  match state connection with
  | kBootstrapping =>
      Returns (true,
               mkEndpointPair (local_endpoint (transports itr_second))
                              (external_endpoint (transports itr_second)),
               false)
        (set_pendings
           (pendings_ mc ++ [mkPendingConnection peer_id itr_second false]) mc)
        [Timer_async_wait peer_id]
  | kUnvalidated =>
      Returns (true,
               mkEndpointPair (local_endpoint (transports itr_second))
                              (external_endpoint (transports itr_second)),
               false)
        mc []
  | _ => Returns (true, this_endpoint_pair, true) mc []
  end.
Proof.
  intros Hc Hg Hd. unfold ExistingConnection. run. rewrite Hc, Hg.
  destruct (state connection) eqn:Hs; run; try reflexivity.
  all: unfold assert, AddPending, new_PendingConnection.
  all: destruct NDEBUG; run; try reflexivity.
  all: destruct Hd as [-> ->]; auto; run; reflexivity.
Qed.

(** C10.  When [connections_] has an entry for the peer but the
    transport has no such connection, [ExistingConnection] erases the
    entry and returns [false] with both reference parameters untouched,
    which is what it returns when there is no entry at all; it does so
    in both builds, without assertion failure. *)
Theorem ExistingConnection_stale_entry (peer_id : NodeId)
    (this_endpoint_pair : EndpointPair) (connection_exists : bool)
    (mc : ManagedConnections) (itr_second : TransportPtr) :
  connections_ mc !! peer_id = Some itr_second →
  GetConnection (transports itr_second) peer_id = None →
  ExistingConnection NDEBUG transports peer_id this_endpoint_pair connection_exists mc =
    Returns (false, this_endpoint_pair, connection_exists)
      (set_connections (delete peer_id (connections_ mc)) mc) [] ∧
  (∀ mc0, connections_ mc0 !! peer_id = None →
     ExistingConnection NDEBUG transports peer_id this_endpoint_pair connection_exists
       mc0 = Returns (false, this_endpoint_pair, connection_exists) mc0 []) ∧
  connections_ (set_connections (delete peer_id (connections_ mc)) mc) !! peer_id = None.
Proof.
  intros Hc Hg. split_and!.
  - unfold ExistingConnection. run. rewrite Hc, Hg. reflexivity.
  - intros mc0 Hc0. unfold ExistingConnection. run. rewrite Hc0. reflexivity.
  - cbn. apply lookup_delete_eq.
Qed.

(** *** The callbacks of a transport *)

Lemma RemovePending_run (p : NodeId) (mc : ManagedConnections) :
  RemovePending p mc =
  Returns tt (set_pendings (erase_pending p (pendings_ mc)) mc) [].
Proof.
  unfold RemovePending, erase_pending. run.
  destruct mc as [l0 n0 c0 m0 pendings i0 t0]. cbn.
  unfold FindPendingTransportWithNodeId.
  destruct (list_find _ pendings) as [[i y] |]; reflexivity.
Qed.

Lemma UpdateIdleTransports_run (t : TransportPtr) (mc : ManagedConnections) :
  idle_implies_available NDEBUG transports t →
  UpdateIdleTransports NDEBUG transports t mc =
  Returns tt
    (set_idle_transports (refresh_idle transports t (idle_transports_ mc)) mc) [].
Proof.
  intros Hd.
  unfold UpdateIdleTransports, refresh_idle, assert, idle_implies_available in *.
  destruct (IsIdle _); run; [| reflexivity].
  destruct NDEBUG; run; [reflexivity |].
  rewrite Hd by done. reflexivity.
Qed.

Lemma erase_unavailable_idle_transports_run (mc : ManagedConnections) :
  erase_unavailable_idle_transports NDEBUG transports mc =
    Returns tt
      (set_idle_transports
         (available_in_debug NDEBUG transports (idle_transports_ mc)) mc) [].
Proof.
  unfold erase_unavailable_idle_transports, available_in_debug.
  destruct NDEBUG; run; [by destruct mc | reflexivity].
Qed.

(** What the closing block of a debug build keeps. *)
Lemma elem_of_available_in_debug (idle : gset TransportPtr) (u : TransportPtr) :
  u ∈ available_in_debug NDEBUG transports idle ↔
  u ∈ idle ∧ (NDEBUG = false → IsAvailable (transports u) = true).
Proof.
  unfold available_in_debug. destruct NDEBUG.
  - split; [by intros Hu | by intros [Hu _]].
  - rewrite elem_of_filter. split; intros [Hu Ha]; auto.
Qed.

(** The closing block changes nothing in a release build, and nothing
    in a debug build when the idle transports are available. *)
Lemma available_in_debug_id (idle : gset TransportPtr) :
  (NDEBUG = false → ∀ u, u ∈ idle → IsAvailable (transports u) = true) →
  available_in_debug NDEBUG transports idle = idle.
Proof.
  intros Hd. apply set_eq. intros u. rewrite elem_of_available_in_debug.
  split; [by intros [Hu _] | auto].
Qed.

Lemma refresh_idle_available (t : TransportPtr) (mc : ManagedConnections) :
  idle_transports_available transports mc →
  (IsIdle (transports t) = true → IsAvailable (transports t) = true) →
  ∀ u, u ∈ refresh_idle transports t (idle_transports_ mc) →
       IsAvailable (transports u) = true.
Proof.
  intros Hinv Hd u. unfold refresh_idle.
  destruct (IsIdle (transports t)).
  - rewrite elem_of_union, elem_of_singleton. intros [-> | Hu]; auto.
  - rewrite elem_of_difference. intros [Hu _]. auto.
Qed.

Lemma OnConnectionAddedSlot_temporary (peer_id : NodeId) (transport : TransportPtr)
    (mc : ManagedConnections) :
  idle_implies_available NDEBUG transports transport →
  OnConnectionAddedSlot NDEBUG transports peer_id transport true mc =
    Returns false
      (set_idle_transports
         (available_in_debug NDEBUG transports
            (refresh_idle transports transport (idle_transports_ mc))) mc) [].
Proof.
  intros Hd. unfold OnConnectionAddedSlot.
  erewrite bind_run; last first.
  { erewrite bind_run by (by apply UpdateIdleTransports_run). run. reflexivity. }
  erewrite bind_run by apply erase_unavailable_idle_transports_run.
  run. reflexivity.
Qed.

(** In a release build, and in a debug build in which the idle
    transports are available, a temporary connection does what the
    specification says. *)
Lemma OnConnectionAddedSlot_temporary_available (peer_id : NodeId)
    (transport : TransportPtr) (mc : ManagedConnections) :
  (NDEBUG = false → idle_transports_available transports mc) →
  idle_implies_available NDEBUG transports transport →
  only_refreshes_idle_status NDEBUG transports peer_id transport mc.
Proof.
  intros Hinv Hd. unfold only_refreshes_idle_status.
  rewrite OnConnectionAddedSlot_temporary by done.
  rewrite available_in_debug_id; [done |].
  intros Hn u. apply refresh_idle_available; auto.
Qed.

Lemma OnConnectionAddedSlot_inserted (peer_id : NodeId) (transport : TransportPtr)
    (mc : ManagedConnections) :
  connections_ mc !! peer_id = None →
  OnConnectionAddedSlot NDEBUG transports peer_id transport false mc =
    Returns false
      (mkManagedConnections (listener_ mc) (this_node_id_ mc)
         (chosen_bootstrap_contact_ mc)
         (<[peer_id := transport]> (connections_ mc))
         (erase_pending peer_id (pendings_ mc))
         (available_in_debug NDEBUG transports (idle_transports_ mc ∖ {[transport]}))
         (nat_type_ mc)) [].
Proof.
  intros Hc. unfold OnConnectionAddedSlot.
  erewrite bind_run; last first.
  { erewrite bind_run by apply RemovePending_run. run. rewrite Hc. reflexivity. }
  erewrite bind_run by apply erase_unavailable_idle_transports_run.
  run. reflexivity.
Qed.

Lemma OnConnectionAddedSlot_duplicate (peer_id : NodeId) (transport earlier : TransportPtr)
    (mc : ManagedConnections) :
  idle_implies_available NDEBUG transports transport →
  connections_ mc !! peer_id = Some earlier →
  OnConnectionAddedSlot NDEBUG transports peer_id transport false mc =
    Returns true
      (mkManagedConnections (listener_ mc) (this_node_id_ mc)
         (chosen_bootstrap_contact_ mc)
         (connections_ mc)
         (erase_pending peer_id (pendings_ mc))
         (available_in_debug NDEBUG transports
            (refresh_idle transports transport (idle_transports_ mc)))
         (nat_type_ mc)) [].
Proof.
  intros Hd Hc. unfold OnConnectionAddedSlot.
  erewrite bind_run; last first.
  { erewrite bind_run by apply RemovePending_run. run. rewrite Hc.
    rewrite UpdateIdleTransports_run by done. reflexivity. }
  erewrite bind_run by apply erase_unavailable_idle_transports_run.
  run. reflexivity.
Qed.

(** X22.  Two transports report a normal connection to the same peer,
    one after the other: the first is recorded and is told "not a
    duplicate", the second is told "duplicate" and the entry stays with
    the first.  The one condition is what [UpdateIdleTransports]
    asserts of the second transport in a debug build. *)
Lemma OnConnectionAddedSlot_twice (peer_id : NodeId) (first second : TransportPtr)
    (mc : ManagedConnections) :
  idle_implies_available NDEBUG transports second →
  connections_ mc !! peer_id = None →
  ∃ mc1 mc2,
    OnConnectionAddedSlot NDEBUG transports peer_id first false mc =
      Returns false mc1 [] ∧
    OnConnectionAddedSlot NDEBUG transports peer_id second false mc1 =
      Returns true mc2 [] ∧
    connections_ mc2 = <[peer_id := first]> (connections_ mc) ∧
    connections_ mc2 !! peer_id = Some first.
Proof.
  intros Hd Hc. eexists _, _. split_and!.
  - by apply OnConnectionAddedSlot_inserted.
  - apply OnConnectionAddedSlot_duplicate with (earlier := first); [done |].
    cbn. apply lookup_insert_eq.
  - reflexivity.
  - cbn. apply lookup_insert_eq.
Qed.

(** C3.  [OnConnectionAddedSlot(peer_id, transport, temporary)].  For a
    temporary connection only the idle status of [transport] is
    refreshed.  Otherwise the pending connection to [peer_id] is
    erased and [(peer_id, transport)] is inserted into [connections_]:
    when no entry was there the insertion succeeds, [transport] leaves
    [idle_transports_] and the answer is "not a duplicate"; when an
    earlier transport holds [peer_id] the answer is "duplicate", the
    map is unchanged and the idle status of [transport] is refreshed.
    In each case a debug build then erases from [idle_transports_] the
    transports that are not available, and a release build does not.
    With one pending connection per peer, none to [peer_id] is left.
    Where [UpdateIdleTransports] is called, a debug build asserts that
    [transport], if idle, is available. *)
Theorem OnConnectionAddedSlot_spec (peer_id : NodeId) (transport : TransportPtr)
    (mc : ManagedConnections) :
  (idle_implies_available NDEBUG transports transport →
   OnConnectionAddedSlot NDEBUG transports peer_id transport true mc =
     Returns false
       (set_idle_transports
          (available_in_debug NDEBUG transports
             (refresh_idle transports transport (idle_transports_ mc))) mc) []) ∧
  (connections_ mc !! peer_id = None →
   OnConnectionAddedSlot NDEBUG transports peer_id transport false mc =
     Returns false
       (mkManagedConnections (listener_ mc) (this_node_id_ mc)
          (chosen_bootstrap_contact_ mc)
          (<[peer_id := transport]> (connections_ mc))
          (erase_pending peer_id (pendings_ mc))
          (available_in_debug NDEBUG transports (idle_transports_ mc ∖ {[transport]}))
          (nat_type_ mc)) []) ∧
  (∀ earlier,
     connections_ mc !! peer_id = Some earlier →
     idle_implies_available NDEBUG transports transport →
     OnConnectionAddedSlot NDEBUG transports peer_id transport false mc =
       Returns true
         (mkManagedConnections (listener_ mc) (this_node_id_ mc)
            (chosen_bootstrap_contact_ mc)
            (connections_ mc)
            (erase_pending peer_id (pendings_ mc))
            (available_in_debug NDEBUG transports
               (refresh_idle transports transport (idle_transports_ mc)))
            (nat_type_ mc)) []) ∧
  (one_pending_per_peer (pendings_ mc) →
   ∀ pending, pending ∈ erase_pending peer_id (pendings_ mc) →
              node_id pending ≠ peer_id) ∧
  (∀ idle u,
     u ∈ available_in_debug NDEBUG transports idle ↔
     u ∈ idle ∧ (NDEBUG = false → IsAvailable (transports u) = true)).
Proof.
  split_and!.
  - apply OnConnectionAddedSlot_temporary.
  - apply OnConnectionAddedSlot_inserted.
  - intros earlier Hc Hd. by apply OnConnectionAddedSlot_duplicate with (earlier := earlier).
  - apply erase_pending_gone.
  - apply elem_of_available_in_debug.
Qed.

(** C4.  [OnConnectionLostSlot(peer_id, transport, temporary)].  A
    temporary loss refreshes the idle status of [transport] and nothing
    else.  Otherwise the pending connection to [peer_id] is erased;
    when [connections_[peer_id]] is [transport] the entry is erased,
    the recorded bootstrap contact is reset if its id is [peer_id], and
    the listener, if it is still there, gets [ConnectionLost(peer_id)]
    once; when [connections_] has no entry for [peer_id] no one is
    notified. *)
Theorem OnConnectionLostSlot_spec (peer_id : NodeId) (transport : TransportPtr)
    (mc : ManagedConnections) :
  idle_implies_available NDEBUG transports transport →
  OnConnectionLostSlot NDEBUG transports peer_id transport true mc =
    Returns tt
      (set_idle_transports
         (refresh_idle transports transport (idle_transports_ mc)) mc) [] ∧
  (connections_ mc !! peer_id = Some transport →
   OnConnectionLostSlot NDEBUG transports peer_id transport false mc =
     Returns tt
       (mkManagedConnections (listener_ mc) (this_node_id_ mc)
          (if decide (id (chosen_bootstrap_contact_ mc) = peer_id)
           then Contact_default else chosen_bootstrap_contact_ mc)
          (delete peer_id (connections_ mc))
          (erase_pending peer_id (pendings_ mc))
          (refresh_idle transports transport (idle_transports_ mc))
          (nat_type_ mc))
       (match listener_ mc with
        | Some listener => [Listener_ConnectionLost listener peer_id]
        | None => []
        end)) ∧
  (connections_ mc !! peer_id = None →
   OnConnectionLostSlot NDEBUG transports peer_id transport false mc =
     Returns tt
       (mkManagedConnections (listener_ mc) (this_node_id_ mc)
          (chosen_bootstrap_contact_ mc)
          (connections_ mc)
          (erase_pending peer_id (pendings_ mc))
          (refresh_idle transports transport (idle_transports_ mc))
          (nat_type_ mc)) []) ∧
  (one_pending_per_peer (pendings_ mc) →
   ∀ pending, pending ∈ erase_pending peer_id (pendings_ mc) →
              node_id pending ≠ peer_id).
Proof.
  intros Hd. split_and!.
  - unfold OnConnectionLostSlot.
    erewrite bind_run by (by apply UpdateIdleTransports_run). run. reflexivity.
  - intros Hc. unfold OnConnectionLostSlot.
    erewrite bind_run by (by apply UpdateIdleTransports_run). cbn.
    erewrite bind_run by apply RemovePending_run. run. rewrite Hc.
    rewrite bool_decide_eq_false_2 by (intros Hne; by apply Hne).
    run.
    destruct (decide (id (chosen_bootstrap_contact_ mc) = peer_id)) as [He | Hne].
    + rewrite bool_decide_eq_true_2 by done. run.
      destruct (listener_ mc) eqn:Hl; unfold set_chosen_bootstrap_contact; cbn;
        rewrite Hl; reflexivity.
    + rewrite bool_decide_eq_false_2 by congruence. run.
      destruct (listener_ mc) eqn:Hl; unfold set_connections; cbn;
        rewrite Hl; reflexivity.
  - intros Hc. unfold OnConnectionLostSlot.
    erewrite bind_run by (by apply UpdateIdleTransports_run). cbn.
    erewrite bind_run by apply RemovePending_run. run. rewrite Hc. reflexivity.
  - apply erase_pending_gone.
Qed.

(** *** Add and Send *)

Lemma find_peer_not_this (peer : Contact) mc itr pending :
  this_node_not_in_directory mc →
  FindPendingTransportWithNodeId (id peer) (pendings_ mc) = Some (itr, pending) →
  id peer ≠ this_node_id_ mc.
Proof.
  intros [_ Hp] Hf. apply list_find_Some in Hf as (Hl & Hid & _).
  rewrite <- Hid. apply Hp. by eapply list_elem_of_lookup_2.
Qed.

(** C7.  [Add(peer)] without a usable pending connection.  With no
    pending connection to [peer.id] the handler gets
    [already_connected] when [connections_] has an entry for [peer.id]
    and [operation_not_supported] otherwise; when the pending
    connection to [peer.id] is already connecting the handler gets
    [connection_already_in_progress]; in both cases the directory,
    hence the pending connection, is left as it was.  This node is
    not in the directory (invariant 6). *)
Theorem DoAdd_gates (peer : Contact) (h : N) (mc : ManagedConnections) :
  this_node_not_in_directory mc →
  (FindPendingTransportWithNodeId (id peer) (pendings_ mc) = None →
   DoAdd NDEBUG IsValid transports peer (Some h) mc =
     Returns tt mc
       [Handler_invoked h
          (Some (if decide (is_Some (connections_ mc !! id peer))
                 then already_connected else operation_not_supported))]) ∧
  (∀ itr pending,
     FindPendingTransportWithNodeId (id peer) (pendings_ mc) = Some (itr, pending) →
     connecting pending = true →
     DoAdd NDEBUG IsValid transports peer (Some h) mc =
       Returns tt mc [Handler_invoked h (Some connection_already_in_progress)]).
Proof.
  intros Hinv. split.
  - intros Hf. unfold DoAdd. run. rewrite Hf.
    destruct (decide (id peer = this_node_id_ mc)) as [He | Hne].
    + rewrite bool_decide_eq_true_2 by done. run.
      destruct Hinv as [Hc _]. rewrite He, Hc.
      rewrite decide_False by (by intros [? ?]). reflexivity.
    + rewrite bool_decide_eq_false_2 by done.
      destruct (decide (is_Some (connections_ mc !! id peer))).
      * rewrite bool_decide_eq_true_2 by done. reflexivity.
      * rewrite bool_decide_eq_false_2 by done. reflexivity.
  - intros itr pending Hf Hconn. unfold DoAdd. run.
    rewrite bool_decide_eq_false_2 by (by eapply find_peer_not_this).
    rewrite Hf, Hconn. reflexivity.
Qed.

(** C6.  [Add(peer)] when the pending connection to [peer.id] is not
    yet connecting and its transport already has a connection to
    [peer.id]: if that connection is [kBootstrapping], or is
    [kPermanent] with [peer.id] the id of the recorded bootstrap
    contact, the handler gets success at once (the pending connection
    stays, marked connecting); in any other state the pending
    connection is erased and the handler gets [already_connected]. *)
Theorem DoAdd_existing_connection (peer : Contact) (h : N) (mc : ManagedConnections)
    (itr : nat) (pending : PendingConnection) (connection : Connection) :
  this_node_not_in_directory mc →
  FindPendingTransportWithNodeId (id peer) (pendings_ mc) = Some (itr, pending) →
  connecting pending = false →
  GetConnection (transports (pending_transport pending)) (id peer) = Some connection →
  (NDEBUG = false → IsValid Endpoint_default = false) →
  DoAdd NDEBUG IsValid transports peer (Some h) mc =
    if decide (state connection = kBootstrapping ∨
               state connection = kPermanent ∧
               id peer = id (chosen_bootstrap_contact_ mc))
    then
      Returns tt
        (set_pendings
           (<[itr := mkPendingConnection (node_id pending)
                       (pending_transport pending) true]> (pendings_ mc)) mc)
        [Handler_invoked h None]
    else
      Returns tt (set_pendings (delete itr (pendings_ mc)) mc)
        [Handler_invoked h (Some already_connected)].
Proof.
  intros Hinv Hf Hconn Hg Hvalid. unfold DoAdd. run.
  rewrite bool_decide_eq_false_2 by (by eapply find_peer_not_this).
  rewrite Hf, Hconn. run. rewrite Hg.
  destruct (state connection) eqn:Hs; run.
  all: repeat (case_bool_decide; try done; cbn).
  all: case_decide as Hdec; try (exfalso; intuition congruence).
  all: unfold assert; try (destruct NDEBUG; [| rewrite Hvalid by done]); run.
  all: try reflexivity.
  all: try (by rewrite delete_insert_same).
  all: exfalso; apply Hdec; auto.
Qed.

(** [Add(peer)] when the transport of the pending connection has no
    connection to the peer yet: the pending connection is marked
    connecting and the transport is asked to connect. *)
Lemma DoAdd_connects (peer : Contact) (handler : Functor) (mc : ManagedConnections)
    (itr : nat) (pending : PendingConnection) :
  id peer ≠ this_node_id_ mc →
  FindPendingTransportWithNodeId (id peer) (pendings_ mc) = Some (itr, pending) →
  connecting pending = false →
  GetConnection (transports (pending_transport pending)) (id peer) = None →
  DoAdd NDEBUG IsValid transports peer handler mc =
    Returns tt
      (set_pendings
         (<[itr := mkPendingConnection (node_id pending) (pending_transport pending) true]>
            (pendings_ mc)) mc)
      [Transport_Connect (pending_transport pending) peer handler].
Proof.
  intros Hne Hf Hconn Hg. unfold DoAdd. run.
  rewrite bool_decide_eq_false_2 by done.
  rewrite Hf, Hconn. run. rewrite Hg. reflexivity.
Qed.

Lemma DoAdd_connecting (peer : Contact) (h : N) (mc : ManagedConnections)
    (itr : nat) (pending : PendingConnection) :
  id peer ≠ this_node_id_ mc →
  FindPendingTransportWithNodeId (id peer) (pendings_ mc) = Some (itr, pending) →
  connecting pending = true →
  DoAdd NDEBUG IsValid transports peer (Some h) mc =
    Returns tt mc [Handler_invoked h (Some connection_already_in_progress)].
Proof.
  intros Hne Hf Hconn. unfold DoAdd. run.
  rewrite bool_decide_eq_false_2 by done.
  rewrite Hf, Hconn. reflexivity.
Qed.

(** X21.  [Add(peer)] twice in a row, for a peer an endpoint was
    reserved for: the first call connects and the second is refused
    with [connection_already_in_progress]. *)
Lemma DoAdd_twice (peer : Contact) (handler : Functor) (h : N) (mc : ManagedConnections)
    (itr : nat) (pending : PendingConnection) :
  id peer ≠ this_node_id_ mc →
  FindPendingTransportWithNodeId (id peer) (pendings_ mc) = Some (itr, pending) →
  connecting pending = false →
  GetConnection (transports (pending_transport pending)) (id peer) = None →
  ∃ mc1,
    DoAdd NDEBUG IsValid transports peer handler mc =
      Returns tt mc1 [Transport_Connect (pending_transport pending) peer handler] ∧
    DoAdd NDEBUG IsValid transports peer (Some h) mc1 =
      Returns tt mc1 [Handler_invoked h (Some connection_already_in_progress)].
Proof.
  intros Hne Hf Hconn Hg. eexists. split.
  - by apply DoAdd_connects.
  - apply DoAdd_connecting with
      (itr := itr)
      (pending := mkPendingConnection (node_id pending) (pending_transport pending) true);
      [done | | reflexivity].
    cbn. eapply find_pending_insert; [done |]. cbn.
    unfold FindPendingTransportWithNodeId in Hf.
    by apply list_find_Some in Hf as (_ & ? & _).
Qed.

(** C8.  [Send(peer_id, message, handler)].  To this node itself: the
    handler gets [operation_not_supported].  Otherwise, when
    [connections_] has no entry for [peer_id], or the transport of the
    entry refuses the message, the handler gets [not_connected], on a
    detached thread exactly when [connections_] and [idle_transports_]
    are both empty and directly otherwise; when the transport accepts
    the message the manager invokes no handler.  The directory is the
    same after the call in every case. *)
Theorem DoSend_spec (peer_id : NodeId) (message : Message) (h : N)
    (mc : ManagedConnections) :
  (peer_id = this_node_id_ mc →
   DoSend transports peer_id message (Some h) mc =
     Returns tt mc [Handler_invoked h (Some operation_not_supported)]) ∧
  (peer_id ≠ this_node_id_ mc →
   connections_ mc !! peer_id = None →
   DoSend transports peer_id message (Some h) mc =
     Returns tt mc
       [if decide (connections_ mc = ∅ ∧ idle_transports_ mc = ∅)
        then Handler_invoked_on_detached_thread h (Some not_connected)
        else Handler_invoked h (Some not_connected)]) ∧
  (∀ itr_second,
     peer_id ≠ this_node_id_ mc →
     connections_ mc !! peer_id = Some itr_second →
     Send (transports itr_second) peer_id message = false →
     DoSend transports peer_id message (Some h) mc =
       Returns tt mc
         [Transport_Send itr_second peer_id message (Some h);
          Handler_invoked h (Some not_connected)] ∧
     ¬ (connections_ mc = ∅ ∧ idle_transports_ mc = ∅)) ∧
  (∀ itr_second,
     peer_id ≠ this_node_id_ mc →
     connections_ mc !! peer_id = Some itr_second →
     Send (transports itr_second) peer_id message = true →
     DoSend transports peer_id message (Some h) mc =
       Returns tt mc [Transport_Send itr_second peer_id message (Some h)]).
Proof.
  split_and!.
  - intros He. unfold DoSend. run. by rewrite bool_decide_eq_true_2.
  - intros Hne Hc. unfold DoSend. run.
    rewrite bool_decide_eq_false_2 by done. rewrite Hc. run.
    repeat case_bool_decide; case_decide; cbn; try reflexivity; exfalso; tauto.
  - intros itr_second Hne Hc Hs. 
    assert (connections_ mc ≠ ∅) as Hnonempty.
    { intros Hempty. rewrite Hempty, lookup_empty in Hc. done. }
    split; [| tauto].
    unfold DoSend. run.
    rewrite bool_decide_eq_false_2 by done. rewrite Hc. run. rewrite Hs. 
    rewrite (bool_decide_eq_false_2 (connections_ mc = ∅)) by done. reflexivity.
  - intros itr_second Hne Hc Hs. unfold DoSend. run.
    rewrite bool_decide_eq_false_2 by done. rewrite Hc. run. rewrite Hs. reflexivity.
Qed.

(** *** Reserving an endpoint *)

Lemma assert_Returns_inv (c : bool) mc a mc' calls :
  assert NDEBUG c mc = Returns a mc' calls →
  mc' = mc ∧ calls = [] ∧ (NDEBUG = false → c = true).
Proof.
  unfold assert. destruct NDEBUG; run.
  - intros [= <- <- <-]. done.
  - destruct c; run; [| done]. intros [= <- <- <-]. done.
Qed.

Lemma assert_run (c : bool) mc :
  (NDEBUG = false → c = true) → assert NDEBUG c mc = Returns tt mc [].
Proof.
  unfold assert. destruct NDEBUG; run; [done |]. intros ->; done.
Qed.

Lemma ExistingConnectionAttempt_found p pair mc itr pending :
  FindPendingTransportWithNodeId p (pendings_ mc) = Some (itr, pending) →
  (NDEBUG = false → IsAvailable (transports (pending_transport pending)) = true) →
  ExistingConnectionAttempt NDEBUG transports p pair mc =
  Returns (true, endpoints_of transports (pending_transport pending)) mc [].
Proof.
  intros Hf Hd. unfold ExistingConnectionAttempt. run. rewrite Hf.
  run. rewrite assert_run by done. reflexivity.
Qed.

Lemma ExistingConnectionAttempt_found_inv p pair mc itr pending r mc' calls :
  FindPendingTransportWithNodeId p (pendings_ mc) = Some (itr, pending) →
  ExistingConnectionAttempt NDEBUG transports p pair mc = Returns r mc' calls →
  NDEBUG = false → IsAvailable (transports (pending_transport pending)) = true.
Proof.
  intros Hf. unfold ExistingConnectionAttempt. run. rewrite Hf. run.
  destruct (assert _ _ _) eqn:Ha; [| done].
  apply assert_Returns_inv in Ha as (_ & _ & Ha). intros _. done.
Qed.

Lemma ExistingConnectionAttempt_none p pair mc :
  FindPendingTransportWithNodeId p (pendings_ mc) = None →
  ExistingConnectionAttempt NDEBUG transports p pair mc = Returns (false, pair) mc [].
Proof.
  intros Hf. unfold ExistingConnectionAttempt. run. rewrite Hf. reflexivity.
Qed.

Lemma GetAvailableEndpoint_pending p hint mc itr pending :
  FindPendingTransportWithNodeId p (pendings_ mc) = Some (itr, pending) →
  (NDEBUG = false → IsAvailable (transports (pending_transport pending)) = true) →
  GetAvailableEndpoint NDEBUG max_transports kMaxConnections IsValid transports p hint mc =
  Returns (endpoints (endpoints_of transports (pending_transport pending)) false) mc [].
Proof.
  intros Hf Hd. unfold GetAvailableEndpoint.
  erewrite bind_run by (by eapply ExistingConnectionAttempt_found). reflexivity.
Qed.

Lemma SelectIdleTransport_loop_inv p pair l : ∀ mc b ep mc1 calls,
  FindPendingTransportWithNodeId p (pendings_ mc) = None →
  SelectIdleTransport_loop NDEBUG transports p pair l mc = Returns (b, ep) mc1 calls →
  if b then
    ∃ t, ep = endpoints_of transports t ∧ IsAvailable (transports t) = true ∧
         pendings_ mc1 = pendings_ mc ++ [new_PendingConnection p t]
  else
    ep = pair ∧ pendings_ mc1 = pendings_ mc ∧ connections_ mc1 = connections_ mc.
Proof.
  induction l as [| t l IH]; intros mc b ep mc1 calls Hf; cbn.
  - run. intros [= <- <- <- <-]. done.
  - destruct (IsAvailable (transports t)) eqn:Hav.
    + run. destruct (assert _ _ _) as [[] mc' calls' |] eqn:Ha; [| done].
      apply assert_Returns_inv in Ha as (-> & -> & _).
      unfold AddPending. run. intros [= <- <- <- <-]. eauto.
    + intros Hrun. apply bind_Returns_inv in Hrun as (a & mc' & c1 & c2 & Hm & Hrun & ->).
      unfold modify in Hm. injection Hm as <- <- <-.
      apply IH in Hrun; [| done]. done.
Qed.

Lemma SelectAnyTransport_inv p pair mc ep mc1 calls :
  FindPendingTransportWithNodeId p (pendings_ mc) = None →
  SelectAnyTransport NDEBUG kMaxConnections transports p pair mc =
    Returns (true, ep) mc1 calls →
  ∃ t, ep = endpoints_of transports t ∧
       (NDEBUG = false → IsAvailable (transports t) = true) ∧
       pendings_ mc1 = pendings_ mc ++ [new_PendingConnection p t].
Proof.
  intros Hf Hrun. unfold SelectAnyTransport in Hrun.
  apply bind_Returns_inv in Hrun as ([b ep'] & mc' & c1 & c2 & Hm & Hrun & ->).
  unfold SelectIdleTransport in Hm.
  apply bind_Returns_inv in Hm as (mc0 & mc0' & c3 & c4 & Hget & Hm & ->).
  unfold get in Hget. injection Hget as <- <- <-.
  apply SelectIdleTransport_loop_inv in Hm; [| done].
  destruct b.
  - destruct Hm as (t & -> & Hav & Hp). 
    revert Hrun. run. intros [= <- <- <-]. eauto.
  - destruct Hm as (-> & Hp & Hc). revert Hrun. run.
    destruct (GetAvailableTransport _ _ _) as [t |]; [| done].
    run. destruct (assert _ _ _) as [[] mc2 calls2 |] eqn:Ha; [| done].
    apply assert_Returns_inv in Ha as (-> & -> & Hav).
    destruct (assert _ _ _) as [[] mc3 calls3 |] eqn:Ha2; [| done].
    apply assert_Returns_inv in Ha2 as (-> & -> & _).
    unfold AddPending. run. intros [= <- <- <-]. cbn. rewrite Hp. eauto.
Qed.


Lemma SelectTransportFor_inv p hint pair mc ep started mc1 calls :
  FindPendingTransportWithNodeId p (pendings_ mc) = None →
  SelectTransportFor NDEBUG max_transports kMaxConnections IsValid transports
    p hint pair mc = Returns (endpoints ep started) mc1 calls →
  ∃ t, ep = endpoints_of transports t ∧
       (NDEBUG = false → IsAvailable (transports t) = true) ∧
       pendings_ mc1 = pendings_ mc ++ [new_PendingConnection p t].
Proof.
  intros Hf Hrun. unfold SelectTransportFor in Hrun.
  apply bind_Returns_inv in Hrun as (mc0 & mc0' & c1 & c2 & Hget & Hrun & ->).
  unfold get in Hget. injection Hget as <- <- <-.
  apply bind_Returns_inv in Hrun as ([] & mc' & c3 & c4 & Hemit & Hrun & ->).
  assert (mc' = mc) as ->.
  { destruct (ShouldStartNewTransport _ _ _ _ _); revert Hemit; run; by intros [= <- <-]. }
  apply bind_Returns_inv in Hrun as ([b ep'] & mc2 & c5 & c6 & Hsel & Hrun & ->).
  destruct b; revert Hrun; run; [| done]. intros [= <- <- <- <-].
  by eapply SelectAnyTransport_inv.
Qed.

Lemma GetAvailableEndpoint_reserved p hint l t mc1 :
  FindPendingTransportWithNodeId p l = None →
  pendings_ mc1 = l ++ [new_PendingConnection p t] →
  (NDEBUG = false → IsAvailable (transports t) = true) →
  GetAvailableEndpoint NDEBUG max_transports kMaxConnections IsValid transports
    p hint mc1 = Returns (endpoints (endpoints_of transports t) false) mc1 [].
Proof.
  intros Hf Hp Hav.
  apply GetAvailableEndpoint_pending with (itr := length l)
                                          (pending := new_PendingConnection p t).
  - rewrite Hp. by apply find_pending_app_new.
  - done.
Qed.

(** Two calls in a row: whatever the first call did to reserve an
    endpoint, the second one returns the same endpoints and leaves the
    directory as the first one left it. *)
Lemma GetAvailableEndpoint_twice p hint hint' mc ep started mc1 calls :
  GetAvailableEndpoint NDEBUG max_transports kMaxConnections IsValid transports
    p hint mc = Returns (endpoints ep started) mc1 calls →
  GetAvailableEndpoint NDEBUG max_transports kMaxConnections IsValid transports
    p hint' mc1 = Returns (endpoints ep false) mc1 [].
Proof.
  intros Hrun.
  destruct (FindPendingTransportWithNodeId p (pendings_ mc)) as [[itr pending] |] eqn:Hf.
  - (* the reservation is there already *)
    unfold GetAvailableEndpoint in Hrun.
    apply bind_Returns_inv in Hrun as ([b ep'] & mc' & c1 & c2 & Hm & Hrun & ->).
    pose proof (ExistingConnectionAttempt_found_inv _ _ _ _ _ _ _ _ Hf Hm) as Hav.
    rewrite (ExistingConnectionAttempt_found _ _ _ _ _ Hf Hav) in Hm.
    injection Hm as <- <- <- <-. revert Hrun. run. intros [= <- <- <- <-].
    by apply GetAvailableEndpoint_pending with itr.
  - pose proof Hrun as Hfirst. unfold GetAvailableEndpoint in Hrun.
    erewrite bind_run in Hrun by (by apply ExistingConnectionAttempt_none).
    cbn in Hrun.
    destruct (connections_ mc !! p) as [t |] eqn:Hc.
    + destruct (GetConnection (transports t) p) as [connection |] eqn:Hg.
      * (* a connection to the peer *)
        unfold ExistingConnection in Hrun. revert Hrun. run. rewrite Hc, Hg.
        destruct (state connection) eqn:Hs; run.
        all: repeat (case_bool_decide; try done); cbn; try done.
        -- destruct (assert _ _ _) as [[] mc2 calls2 |] eqn:Ha; [| done].
           apply assert_Returns_inv in Ha as (-> & -> & Hav).
           destruct (assert _ _ _) as [[] mc3 calls3 |] eqn:Ha2; [| done].
           apply assert_Returns_inv in Ha2 as (-> & -> & _).
           unfold AddPending. run. intros [= <- <- <- <-].
           by eapply GetAvailableEndpoint_reserved.
        -- destruct (assert _ _ _) as [[] mc2 calls2 |] eqn:Ha; [| done].
           apply assert_Returns_inv in Ha as (-> & -> & Hav).
           destruct (assert _ _ _) as [[] mc3 calls3 |] eqn:Ha2; [| done].
           apply assert_Returns_inv in Ha2 as (-> & -> & Hnone).
           run. intros [= <- <- <- <-].
           unfold GetAvailableEndpoint.
           erewrite bind_run by (by apply ExistingConnectionAttempt_none).
           unfold ExistingConnection. run. rewrite Hc, Hg, Hs.
           repeat (case_bool_decide; try done); cbn.
           rewrite assert_run by done. rewrite assert_run by done. reflexivity.
      * (* a stale entry *)
        unfold ExistingConnection in Hrun. revert Hrun. run. rewrite Hc, Hg. run.
        destruct (SelectTransportFor _ _ _ _ _ _ _ _ _) as [r mc2 calls2 |] eqn:Hsel;
          [| done].
        intros [= -> <- <-].
        apply SelectTransportFor_inv in Hsel as (t' & -> & Hav & Hp); [| done].
        by eapply GetAvailableEndpoint_reserved.
    + unfold ExistingConnection in Hrun. revert Hrun. run. rewrite Hc. run.
      destruct (SelectTransportFor _ _ _ _ _ _ _ _ _) as [r mc2 calls2 |] eqn:Hsel;
        [| done].
      intros [= -> <- <-].
      apply SelectTransportFor_inv in Hsel as (t' & -> & Hav & Hp); [| done].
      by eapply GetAvailableEndpoint_reserved.
Qed.

(** After a stale entry for the peer has been erased,
    [GetAvailableEndpoint] goes on to select a transport. *)
Lemma GetAvailableEndpoint_stale_entry (peer_id : NodeId) (peer_hint : EndpointPair)
    (mc : ManagedConnections) (itr_second : TransportPtr) :
  FindPendingTransportWithNodeId peer_id (pendings_ mc) = None →
  connections_ mc !! peer_id = Some itr_second →
  GetConnection (transports itr_second) peer_id = None →
  GetAvailableEndpoint NDEBUG max_transports kMaxConnections IsValid transports
    peer_id peer_hint mc =
  SelectTransportFor NDEBUG max_transports kMaxConnections IsValid transports
    peer_id peer_hint EndpointPair_default
    (set_connections (delete peer_id (connections_ mc)) mc).
Proof.
  intros Hf Hc Hg. unfold GetAvailableEndpoint.
  erewrite bind_run by (by apply ExistingConnectionAttempt_none). cbn.
  erewrite bind_run; last first.
  { unfold ExistingConnection. run. rewrite Hc, Hg. reflexivity. }
  cbn. by destruct (SelectTransportFor _ _ _ _ _ _ _ _ _).
Qed.
(** C9.  [GetAvailableEndpoint] is idempotent per peer.  When a pending
    connection to the peer exists, the call (its first step,
    [ExistingConnectionAttempt]) returns the local and external
    endpoints of that pending connection's transport and leaves the
    directory, hence [pendings_], as it is; and a call that follows a
    call which returned endpoints returns the same endpoints.  In a
    debug build the pending transport is available, as the code
    asserts. *)
Theorem GetAvailableEndpoint_idempotent (peer_id : NodeId)
    (peer_hint peer_hint' : EndpointPair) (mc : ManagedConnections) :
  (∀ itr pending,
     FindPendingTransportWithNodeId peer_id (pendings_ mc) = Some (itr, pending) →
     (NDEBUG = false → IsAvailable (transports (pending_transport pending)) = true) →
     ExistingConnectionAttempt NDEBUG transports peer_id EndpointPair_default mc =
       Returns (true, endpoints_of transports (pending_transport pending)) mc [] ∧
     GetAvailableEndpoint NDEBUG max_transports kMaxConnections IsValid transports
       peer_id peer_hint mc =
       Returns (endpoints (endpoints_of transports (pending_transport pending)) false)
         mc []) ∧
  (∀ this_endpoint_pair started_new_transport mc1 calls,
     GetAvailableEndpoint NDEBUG max_transports kMaxConnections IsValid transports
       peer_id peer_hint mc =
       Returns (endpoints this_endpoint_pair started_new_transport) mc1 calls →
     GetAvailableEndpoint NDEBUG max_transports kMaxConnections IsValid transports
       peer_id peer_hint' mc1 =
       Returns (endpoints this_endpoint_pair false) mc1 []).
Proof.
  split.
  - intros itr pending Hf Hav. split.
    + by eapply ExistingConnectionAttempt_found.
    + by eapply GetAvailableEndpoint_pending.
  - intros this_endpoint_pair started_new_transport mc1 calls.
    apply GetAvailableEndpoint_twice.
Qed.

End Properties.

(** ** The claims at the example directories *)

(** C1.  The code at a first successful bootstrap: no bootstrap contact
    is recorded yet, the transport reports success with contact [2], and
    the recorded contact stays the invalid default one; and at a later
    successful bootstrap, when contact [3] is recorded, the callback
    replaces it with contact [2]. *)
Theorem on_bootstrap_records_only_over_valid_contact :
  NodeId_IsValid (id (chosen_bootstrap_contact_ example_mc)) = false ∧
  on_bootstrap example_IsValid example_transports 5%N Address_default (Some 0%N)
    kSuccess (example_contact 2%N) example_mc =
    Returns tt example_mc [BootstrapHandler_invoked 0%N None (example_contact 2%N)] ∧
  chosen_bootstrap_contact_ example_mc ≠ example_contact 2%N ∧
  NodeId_IsValid (id (chosen_bootstrap_contact_ example_mc_bootstrapped)) = true ∧
  on_bootstrap example_IsValid example_transports 5%N Address_default (Some 0%N)
    kSuccess (example_contact 2%N) example_mc_bootstrapped =
    Returns tt (set_chosen_bootstrap_contact (example_contact 2%N) example_mc)
      [BootstrapHandler_invoked 0%N None (example_contact 2%N)] ∧
  example_contact 2%N ≠ chosen_bootstrap_contact_ example_mc_bootstrapped.
Proof.
  split_and!; try reflexivity; discriminate.
Qed.

(** Three connections, four transports of 64 connections each. *)
Lemma ShouldStartNewTransport_spec_witness :
  let peer_hint := mkEndpointPair Endpoint_default (mkEndpoint 50%N 9000%N) in
  (nat_type_ example_mc = kSymmetric →
     ShouldStartNewTransport 4 64 example_IsValid example_mc peer_hint = true ↔
     (Z.of_nat (size (connections_ example_mc)) < 4 * 64)%Z ∧
     (example_IsValid (external peer_hint) = true ∨
      example_IsValid (external peer_hint) = false ∧
      example_IsValid (local peer_hint) = false)) ∧
  (nat_type_ example_mc ≠ kSymmetric →
     ShouldStartNewTransport 4 64 example_IsValid example_mc peer_hint = true ↔
     (Z.of_nat (size (connections_ example_mc)) < 4)%Z).
Proof.
  intros peer_hint.
  apply (ShouldStartNewTransport_spec 4 64 example_IsValid example_mc peer_hint).
  - lia.
  - lia.
  - vm_compute. reflexivity.
Defined.

(** No pending connection is materialized for an unvalidated connection:
    peer [1] has an entry in [connections_], its connection on transport
    [5] is unvalidated, and after the call, which returns the endpoints
    of transport [5], [pendings_] is still empty. *)
Lemma ExistingConnection_unvalidated_counterexample :
  connections_ example_mc !! 1%N = Some 5%N ∧
  state <$> GetConnection (example_transports 5%N) 1%N = Some kUnvalidated ∧
  ∀ NDEBUG, ¬ materializes_pending NDEBUG example_transports 1%N example_mc.
Proof.
  split_and!; [reflexivity | reflexivity |].
  intros NDEBUG (itr_second & mc' & calls & Hc & Hrun & Hin).
  assert (ExistingConnection NDEBUG example_transports 1%N EndpointPair_default false
            example_mc =
          Returns (true, endpoints_of example_transports 5%N, false) example_mc [])
    as Heq by (destruct NDEBUG; reflexivity).
  rewrite Heq in Hrun.
  assert (mc' = example_mc) as -> by congruence.
  cbn in Hin. by apply elem_of_nil in Hin.
Qed.

(** The bootstrapping connection to peer [2], in a debug build. *)
Lemma ExistingConnection_by_state_witness :
  ExistingConnection false example_transports 2%N EndpointPair_default false example_mc =
    Returns (true, endpoints_of example_transports 5%N, false)
      (set_pendings [mkPendingConnection 2%N 5%N false] example_mc)
      [Timer_async_wait 2%N].
Proof.
  apply (ExistingConnection_by_state false example_transports 2%N EndpointPair_default
           false example_mc 5%N (mkConnection kBootstrapping (mkEndpoint 31%N 7001%N))).
  - reflexivity.
  - reflexivity.
  - intros _ _. split; reflexivity.
Defined.

(** An entry for peer [4], to whom transport [5] has no connection. *)
Lemma ExistingConnection_stale_entry_witness :
  let mc := set_connections (<[4%N := 5%N]> (connections_ example_mc)) example_mc in
  ExistingConnection false example_transports 4%N EndpointPair_default false mc =
    Returns (false, EndpointPair_default, false)
      (set_connections (delete 4%N (connections_ mc)) mc) [].
Proof.
  intros mc.
  apply (ExistingConnection_stale_entry false example_transports 4%N EndpointPair_default
           false mc 5%N).
  - reflexivity.
  - reflexivity.
Defined.

(** In a debug build, transport [5] reports a temporary connection
    while the closed transport [6] is in the idle set. *)
Lemma OnConnectionAddedSlot_spec_witness :
  OnConnectionAddedSlot false example_transports_closed 4%N 5%N true example_mc_two_idle =
    Returns false
      (set_idle_transports
         (available_in_debug false example_transports_closed
            (refresh_idle example_transports_closed 5%N {[6%N; 7%N]}))
         example_mc_two_idle) [].
Proof.
  pose proof (OnConnectionAddedSlot_spec false example_transports_closed 4%N 5%N
                example_mc_two_idle) as (Htemporary & _).
  apply Htemporary. intros _ _. reflexivity.
Defined.

(** More than the idle status of the reporting transport changes in a
    debug build: transport [6] is idle and not available, transport [5]
    reports a temporary connection, and after the call transport [6] is
    no longer in the idle set, which refreshing the status of transport
    [5] would have left as it was.  A release build leaves it there. *)
Lemma OnConnectionAddedSlot_temporary_counterexample :
  6%N ∈ idle_transports_ example_mc_two_idle ∧
  IsAvailable (example_transports_closed 6%N) = false ∧
  OnConnectionAddedSlot false example_transports_closed 4%N 5%N true example_mc_two_idle =
    Returns false (set_idle_transports {[7%N]} example_mc_two_idle) [] ∧
  ¬ only_refreshes_idle_status false example_transports_closed 4%N 5%N
      example_mc_two_idle ∧
  only_refreshes_idle_status true example_transports_closed 4%N 5%N example_mc_two_idle.
Proof.
  assert (OnConnectionAddedSlot false example_transports_closed 4%N 5%N true
            example_mc_two_idle =
          Returns false (set_idle_transports {[7%N]} example_mc_two_idle) []) as Hrun
    by (vm_compute; reflexivity).
  split_and!.
  - vm_compute. reflexivity.
  - reflexivity.
  - exact Hrun.
  - unfold only_refreshes_idle_status. rewrite Hrun. intros Heq.
    apply (f_equal (λ outcome,
                      match outcome with
                      | Returns _ mc _ => bool_decide (6%N ∈ idle_transports_ mc)
                      | Aborts _ => false
                      end)) in Heq.
    vm_compute in Heq. discriminate.
  - vm_compute. reflexivity.
Qed.

(** Transport [5] loses the bootstrap contact, peer [3]. *)
Lemma OnConnectionLostSlot_spec_witness :
  OnConnectionLostSlot false example_transports 3%N 5%N false example_mc_bootstrapped =
    Returns tt
      (mkManagedConnections (Some 1%N) 9%N Contact_default
         (delete 3%N (connections_ example_mc)) [] (∅ ∖ {[5%N]}) kSymmetric)
      [Listener_ConnectionLost 1%N 3%N].
Proof.
  pose proof (OnConnectionLostSlot_spec false example_transports 3%N 5%N
                example_mc_bootstrapped (λ _ _, eq_refl))
    as (_ & Hlost & _).
  apply Hlost. reflexivity.
Defined.

(** Node [9] is not a peer of its own directory. *)
Lemma example_this_node_not_in_directory (pendings : list PendingConnection) :
  Forall (λ pending, node_id pending ≠ 9%N) pendings →
  this_node_not_in_directory (set_pendings pendings example_mc_idle).
Proof.
  intros Hall. split; [reflexivity |].
  intros pending Hin. cbn in *. rewrite Forall_forall in Hall. by apply Hall.
Defined.

(** A second [Add] for peer [4] while the first is connecting. *)
Lemma DoAdd_gates_witness :
  DoAdd false example_IsValid example_transports (example_contact 4%N) (Some 0%N)
    example_mc_connecting =
    Returns tt example_mc_connecting
      [Handler_invoked 0%N (Some connection_already_in_progress)].
Proof.
  pose proof (DoAdd_gates false example_IsValid example_transports (example_contact 4%N)
                0%N example_mc_connecting
                (example_this_node_not_in_directory [mkPendingConnection 4%N 7%N true]
                   ltac:(repeat constructor; discriminate)))
    as [_ Hconnecting].
  apply (Hconnecting 0 (mkPendingConnection 4%N 7%N true)); reflexivity.
Defined.

(** [Add] for peer [2], whose bootstrapping connection is on the
    reserved transport. *)
Lemma DoAdd_existing_connection_witness :
  DoAdd false example_IsValid example_transports (example_contact 2%N) (Some 0%N)
    example_mc_pending =
    Returns tt
      (set_pendings [mkPendingConnection 2%N 5%N true] example_mc_pending)
      [Handler_invoked 0%N None].
Proof.
  apply (DoAdd_existing_connection false example_IsValid example_transports
           (example_contact 2%N) 0%N example_mc_pending 0
           (mkPendingConnection 2%N 5%N false)
           (mkConnection kBootstrapping (mkEndpoint 31%N 7001%N))).
  - apply (example_this_node_not_in_directory [mkPendingConnection 2%N 5%N false]).
    repeat constructor; discriminate.
  - reflexivity.
  - reflexivity.
  - reflexivity.
  - intros _. reflexivity.
Defined.

(** A message for peer [4], to whom there is no connection. *)
Lemma DoSend_spec_witness :
  DoSend example_transports 4%N [] (Some 0%N) example_mc =
    Returns tt example_mc [Handler_invoked 0%N (Some not_connected)].
Proof.
  pose proof (DoSend_spec example_transports 4%N [] 0%N example_mc)
    as (_ & Habsent & _).
  apply Habsent.
  - discriminate.
  - reflexivity.
Defined.

(** The endpoint reserved for peer [2] is returned again. *)
Lemma GetAvailableEndpoint_idempotent_witness :
  GetAvailableEndpoint false 4 64 example_IsValid example_transports 2%N
    EndpointPair_default example_mc_pending =
    Returns (endpoints (endpoints_of example_transports 5%N) false) example_mc_pending [].
Proof.
  pose proof (GetAvailableEndpoint_idempotent false 4 64 example_IsValid
                example_transports 2%N EndpointPair_default EndpointPair_default
                example_mc_pending)
    as [Hpending _].
  apply (Hpending 0 (mkPendingConnection 2%N 5%N false)).
  - reflexivity.
  - intros _. reflexivity.
Defined.

(** * Further properties *)

(** ** The ordered containers *)

Lemma set_in_order_elem_of (X : gset TransportPtr) (t : TransportPtr) :
  t ∈ set_in_order X ↔ t ∈ X.
Proof. unfold set_in_order. rewrite merge_sort_Permutation. apply elem_of_elements. Qed.

Lemma set_in_order_NoDup (X : gset TransportPtr) : NoDup (set_in_order X).
Proof. unfold set_in_order. rewrite merge_sort_Permutation. apply NoDup_elements. Qed.

Lemma set_in_order_sorted (X : gset TransportPtr) : StronglySorted N.le (set_in_order X).
Proof. unfold set_in_order. apply StronglySorted_merge_sort; apply _. Qed.

Lemma map_in_order_elem_of (m : gmap NodeId TransportPtr) (k : NodeId) (t : TransportPtr) :
  (k, t) ∈ map_in_order m ↔ m !! k = Some t.
Proof. unfold map_in_order. rewrite merge_sort_Permutation. apply elem_of_map_to_list. Qed.

Lemma map_in_order_values (m : gmap NodeId TransportPtr) (t : TransportPtr) :
  t ∈ (map_in_order m).*2 ↔ ∃ k, m !! k = Some t.
Proof.
  rewrite list_elem_of_fmap. split.
  - intros ([k u] & -> & Hin). exists k. by apply map_in_order_elem_of.
  - intros (k & Hk). exists (k, t). split; [done |]. by apply map_in_order_elem_of.
Qed.

Lemma Close_each_run (range : list TransportPtr) (mc : ManagedConnections) :
  Close_each range mc = Returns tt mc (Transport_Close <$> range).
Proof.
  induction range as [| t range IH]; [done |].
  cbn [Close_each]. erewrite bind_run by reflexivity. by rewrite IH.
Qed.

Lemma elem_of_Close_calls (range : list TransportPtr) (t : TransportPtr) :
  Transport_Close t ∈ Transport_Close <$> range ↔ t ∈ range.
Proof.
  rewrite list_elem_of_fmap. split.
  - by intros (u & [= ->] & Hu).
  - intros Ht. by exists t.
Qed.

Lemma map_in_order_empty : map_in_order ∅ = [].
Proof.
  apply Permutation_nil_r. unfold map_in_order.
  rewrite merge_sort_Permutation. by rewrite map_to_list_empty.
Qed.

Lemma delete_length_app {A} (l : list A) (x : A) : delete (length l) (l ++ [x]) = l.
Proof. induction l as [| y l IH]; cbn; [done | by f_equal]. Qed.

Lemma erase_pending_app_new (p : NodeId) (l : list PendingConnection) (t : TransportPtr) :
  FindPendingTransportWithNodeId p l = None →
  erase_pending p (l ++ [new_PendingConnection p t]) = l.
Proof.
  intros Hf. unfold erase_pending. rewrite find_pending_app_new by done.
  apply delete_length_app.
Qed.

Lemma fmap_node_id_insert (l : list PendingConnection) (itr : nat)
    (pending pending' : PendingConnection) :
  l !! itr = Some pending → node_id pending' = node_id pending →
  node_id <$> <[itr := pending']> l = node_id <$> l.
Proof.
  intros Hl Hid. rewrite list_fmap_insert, Hid.
  apply list_insert_id. by rewrite list_lookup_fmap, Hl.
Qed.


Lemma set_in_order_difference_self (X : gset TransportPtr) :
  X ∖ list_to_set (set_in_order X) = ∅.
Proof.
  apply set_eq. intros u.
  rewrite elem_of_difference, elem_of_list_to_set, set_in_order_elem_of.
  split; [tauto |]. intros Hu. by apply not_elem_of_empty in Hu.
Qed.

Section FurtherProperties.

Variable NDEBUG : bool.
Variable max_transports : Z.
Variable kMaxConnections : Z.
Variable IsValid : Endpoint → bool.
Variable transports : TransportPtr → Transport.
Variable kInvalidParameter : ReturnCode.
Variable kNoBootstrapEndpoints : ReturnCode.
Variable kFailedToGetLocalAddress : ReturnCode.

Lemma SelectIdleTransport_loop_run (p : NodeId) (pair : EndpointPair)
    (l : list TransportPtr) : ∀ mc,
  (NDEBUG = false → FindPendingTransportWithNodeId p (pendings_ mc) = None) →
  SelectIdleTransport_loop NDEBUG transports p pair l mc =
  match list_find (λ t, IsAvailable (transports t) = true) l with
  | None =>
      Returns (false, pair)
        (set_idle_transports (idle_transports_ mc ∖ list_to_set l) mc) []
  | Some (i, t) =>
      Returns (true, endpoints_of transports t)
        (set_pendings (pendings_ mc ++ [new_PendingConnection p t])
           (set_idle_transports (idle_transports_ mc ∖ list_to_set (take i l)) mc))
        [Timer_async_wait p]
  end.
Proof.
  induction l as [| t l IH]; intros mc Hd.
  - cbn. run. rewrite difference_empty_L. by destruct mc.
  - cbn [SelectIdleTransport_loop list_find].
    destruct (IsAvailable (transports t)) eqn:Hav.
    + rewrite decide_True by done. run.
      rewrite assert_run by (intros Hn; rewrite Hd by done; by apply bool_decide_eq_true_2).
      unfold AddPending. run. rewrite difference_empty_L. by destruct mc.
    + rewrite decide_False by done.
      erewrite bind_run by reflexivity. rewrite IH by done. cbn.
      destruct (list_find _ l) as [[i u] |]; cbn;
        rewrite difference_difference_l_L; reflexivity.
Qed.

Lemma SelectIdleTransport_run (p : NodeId) (pair : EndpointPair) (mc : ManagedConnections) :
  (NDEBUG = false → FindPendingTransportWithNodeId p (pendings_ mc) = None) →
  SelectIdleTransport NDEBUG transports p pair mc =
  match list_find (λ t, IsAvailable (transports t) = true)
                  (set_in_order (idle_transports_ mc)) with
  | None =>
      Returns (false, pair)
        (set_idle_transports
           (idle_transports_ mc ∖ list_to_set (set_in_order (idle_transports_ mc))) mc) []
  | Some (i, t) =>
      Returns (true, endpoints_of transports t)
        (set_pendings (pendings_ mc ++ [new_PendingConnection p t])
           (set_idle_transports
              (idle_transports_ mc ∖
               list_to_set (take i (set_in_order (idle_transports_ mc)))) mc))
        [Timer_async_wait p]
  end.
Proof.
  intros Hd. unfold SelectIdleTransport.
  erewrite bind_run by reflexivity.
  rewrite SelectIdleTransport_loop_run by done.
  by destruct (list_find _ _) as [[i t] |].
Qed.

(** X1.  [SelectIdleTransport] only ever drops unavailable transports
    from [idle_transports_]; when it succeeds, the pending connection is
    bound to an available transport that is the least pointer left in
    the set, and when it fails it has emptied the set and added no
    pending connection.  [connections_] is not touched. *)
Theorem SelectIdleTransport_picks_first_available (peer_id : NodeId)
    (this_endpoint_pair : EndpointPair) (mc : ManagedConnections) :
  (NDEBUG = false → FindPendingTransportWithNodeId peer_id (pendings_ mc) = None) →
  ∃ selected pair mc1 calls,
    SelectIdleTransport NDEBUG transports peer_id this_endpoint_pair mc =
      Returns (selected, pair) mc1 calls ∧
    connections_ mc1 = connections_ mc ∧
    idle_transports_ mc1 ⊆ idle_transports_ mc ∧
    (∀ u, u ∈ idle_transports_ mc → u ∉ idle_transports_ mc1 →
          IsAvailable (transports u) = false) ∧
    if selected then
      ∃ t, t ∈ idle_transports_ mc1 ∧ IsAvailable (transports t) = true ∧
           (∀ u, u ∈ idle_transports_ mc1 → (t ≤ u)%N) ∧
           pair = endpoints_of transports t ∧
           pendings_ mc1 = pendings_ mc ++ [new_PendingConnection peer_id t] ∧
           calls = [Timer_async_wait peer_id]
    else
      idle_transports_ mc1 = ∅ ∧ pair = this_endpoint_pair ∧
      pendings_ mc1 = pendings_ mc ∧ calls = [].
Proof.
  intros Hd. rewrite SelectIdleTransport_run by done.
  pose proof (set_in_order_NoDup (idle_transports_ mc)) as Hnodup.
  pose proof (set_in_order_sorted (idle_transports_ mc)) as Hsorted.
  destruct (list_find _ _) as [[i t] |] eqn:Hfind.
  - apply list_find_Some in Hfind as (Hi & Hav & Hbefore).
    pose proof (take_drop_middle _ _ _ Hi) as Hsplit.
    rewrite <- Hsplit in Hnodup, Hsorted.
    apply NoDup_app in Hnodup as (_ & Hdisjoint & _).
    apply StronglySorted_app in Hsorted as (_ & _ & Hsorted).
    apply StronglySorted_cons in Hsorted as (Hle & _).
    assert (∀ u, u ∈ take i (set_in_order (idle_transports_ mc)) →
                 IsAvailable (transports u) = false) as Hunavailable.
    { intros u Hu. apply list_elem_of_lookup in Hu as (j & Hj).
      pose proof (lookup_lt_Some _ _ _ Hj) as Hlt. rewrite length_take in Hlt.
      rewrite lookup_take_lt in Hj by lia.
      apply not_true_is_false. apply (Hbefore j); [done | lia]. }
    eexists true, _, _, _. split; [reflexivity |]. cbn. split_and!.
    + done.
    + intros u. rewrite elem_of_difference. tauto.
    + intros u Hu Hnot. apply Hunavailable.
      destruct (decide (u ∈ take i (set_in_order (idle_transports_ mc)))) as [| Hnotin];
        [done |].
      exfalso. apply Hnot. rewrite elem_of_difference, elem_of_list_to_set. done.
    + exists t. split_and!; try done.
      * rewrite elem_of_difference, elem_of_list_to_set. split.
        -- apply set_in_order_elem_of. by eapply list_elem_of_lookup_2.
        -- intros Hin. apply (Hdisjoint t Hin). left.
      * intros u. rewrite elem_of_difference, elem_of_list_to_set. intros [Hu Hnotin].
        apply set_in_order_elem_of in Hu. rewrite <- Hsplit in Hu.
        apply elem_of_app in Hu as [Hu | Hu]; [done |].
        apply elem_of_cons in Hu as [-> | Hu]; [done |].
        rewrite Forall_forall in Hle. by apply Hle.
  - apply list_find_None in Hfind. rewrite Forall_forall in Hfind.
    eexists false, _, _, _. split; [reflexivity |]. cbn. split_and!; try done.
    + intros u. rewrite elem_of_difference. tauto.
    + intros u Hu _. apply not_true_is_false. apply Hfind.
      by apply set_in_order_elem_of.
    + apply set_eq. intros u.
      rewrite elem_of_difference, elem_of_list_to_set, set_in_order_elem_of.
      split; [tauto |]. intros Hu. by apply not_elem_of_empty in Hu.
Qed.

(** X3.  [SelectAnyTransport] fails exactly when no idle transport is
    available and [GetAvailableTransport] finds none; then the idle set
    is empty and no pending connection was added.  Otherwise one pending
    connection is appended, on an available idle transport if there is
    one, else on the transport [GetAvailableTransport] gives. *)
Theorem SelectAnyTransport_cases (peer_id : NodeId) (this_endpoint_pair : EndpointPair)
    (mc : ManagedConnections) :
  (NDEBUG = false → FindPendingTransportWithNodeId peer_id (pendings_ mc) = None) →
  (NDEBUG = false →
   ∀ t, GetAvailableTransport kMaxConnections transports mc = Some t →
        IsAvailable (transports t) = true) →
  ∃ selected pair mc1 calls,
    SelectAnyTransport NDEBUG kMaxConnections transports peer_id this_endpoint_pair mc =
      Returns (selected, pair) mc1 calls ∧
    connections_ mc1 = connections_ mc ∧
    if selected then
      ∃ t, pair = endpoints_of transports t ∧
           pendings_ mc1 = pendings_ mc ++ [new_PendingConnection peer_id t] ∧
           calls = [Timer_async_wait peer_id] ∧
           (t ∈ idle_transports_ mc ∧ IsAvailable (transports t) = true ∨
            (∀ u, u ∈ idle_transports_ mc → IsAvailable (transports u) = false) ∧
            idle_transports_ mc1 = ∅ ∧
            GetAvailableTransport kMaxConnections transports mc = Some t)
    else
      (∀ u, u ∈ idle_transports_ mc → IsAvailable (transports u) = false) ∧
      GetAvailableTransport kMaxConnections transports mc = None ∧
      idle_transports_ mc1 = ∅ ∧ pendings_ mc1 = pendings_ mc ∧
      pair = this_endpoint_pair ∧ calls = [].
Proof.
  intros Hd Hav. unfold SelectAnyTransport.
  destruct (list_find (λ t, IsAvailable (transports t) = true)
              (set_in_order (idle_transports_ mc))) as [[i t] |] eqn:Hfind.
  - erewrite bind_run by (rewrite SelectIdleTransport_run, Hfind by done; reflexivity).
    apply list_find_Some in Hfind as (Hi & Ht & _).
    eexists true, _, _, _. split; [reflexivity |]. cbn. split; [done |].
    exists t. split_and!; try done. left. split; [| done].
    apply set_in_order_elem_of. by eapply list_elem_of_lookup_2.
  - pose proof Hfind as Hnone.
    apply list_find_None in Hfind. rewrite Forall_forall in Hfind.
    assert (∀ u, u ∈ idle_transports_ mc → IsAvailable (transports u) = false)
      as Hunavailable.
    { intros u Hu. apply not_true_is_false. apply Hfind. by apply set_in_order_elem_of. }
    erewrite bind_run by (rewrite SelectIdleTransport_run, Hnone by done; reflexivity).
    rewrite set_in_order_difference_self. run.
    change (GetAvailableTransport kMaxConnections transports
              (set_idle_transports ∅ mc))
      with (GetAvailableTransport kMaxConnections transports mc).
    destruct (GetAvailableTransport kMaxConnections transports mc) as [t |] eqn:Hget.
    + run. rewrite assert_run by (intros Hn; by apply Hav).
      rewrite assert_run by (intros Hn; apply bool_decide_eq_true_2; by apply Hd).
      unfold AddPending. run.
      eexists true, _, _, _. split; [reflexivity |]. cbn. split; [done |].
      exists t. split_and!; try done. right. done.
    + eexists false, _, _, _. split; [reflexivity |]. cbn. done.
Qed.

Lemma least_connections_fold (range : list (NodeId * TransportPtr)) :
  ∀ (least : Z) (selected : option TransportPtr),
  let result :=
    foldl (λ '(least_connections, selected_transport) (element : NodeId * TransportPtr),
             if (NormalConnectionsCount (transports element.2) <? least_connections)%Z
             then (NormalConnectionsCount (transports element.2), Some element.2)
             else (least_connections, selected_transport))
          (least, selected) range in
  (result.1 ≤ least)%Z ∧
  (∀ element, element ∈ range →
              (result.1 ≤ NormalConnectionsCount (transports element.2))%Z) ∧
  (result = (least, selected) ∨
   ∃ element, element ∈ range ∧ result.2 = Some element.2 ∧
              NormalConnectionsCount (transports element.2) = result.1 ∧
              (result.1 < least)%Z).
Proof.
  induction range as [| e range IH]; intros least selected; cbn.
  - split_and!; [lia | | by left]. intros element Hin. by apply elem_of_nil in Hin.
  - destruct (Z.ltb_spec (NormalConnectionsCount (transports e.2)) least) as [Hlt | Hge].
    + destruct (IH (NormalConnectionsCount (transports e.2)) (Some e.2))
        as (Hle & Hall & Hsel).
      split_and!.
      * lia.
      * intros element [-> | Hin]%elem_of_cons; [done | by apply Hall].
      * right. destruct Hsel as [-> | (element & Hin & Hs & Hc & Hl)].
        -- exists e. cbn. split_and!; [left | done | done | done].
        -- exists element. split_and!; [by right | done | done | lia].
    + destruct (IH least selected) as (Hle & Hall & Hsel).
      split_and!.
      * done.
      * intros element [-> | Hin]%elem_of_cons; [lia | by apply Hall].
      * destruct Hsel as [-> | (element & Hin & Hs & Hc & Hl)]; [by left |].
        right. exists element. split_and!; [by right | done | done | done].
Qed.

(** X2.  [GetAvailableTransport] returns the transport of some
    connection whose count of normal connections is below
    [kMaxConnections] and is the least over all connections; it
    returns a null pointer exactly when every connection's transport is
    at the cap. *)
Theorem GetAvailableTransport_least_loaded (mc : ManagedConnections) :
  match GetAvailableTransport kMaxConnections transports mc with
  | Some t =>
      (∃ peer_id, connections_ mc !! peer_id = Some t) ∧
      (NormalConnectionsCount (transports t) < static_cast_size_t kMaxConnections)%Z ∧
      ∀ peer_id u, connections_ mc !! peer_id = Some u →
        (NormalConnectionsCount (transports t) ≤ NormalConnectionsCount (transports u))%Z
  | None =>
      ∀ peer_id u, connections_ mc !! peer_id = Some u →
        (static_cast_size_t kMaxConnections ≤ NormalConnectionsCount (transports u))%Z
  end.
Proof.
  unfold GetAvailableTransport.
  pose proof (least_connections_fold (map_in_order (connections_ mc))
                (static_cast_size_t kMaxConnections) None) as Hfold.
  cbv zeta in Hfold.
  destruct (foldl _ _ _) as [least selected]. cbn in *.
  destruct Hfold as (Hle & Hall & Hsel).
  destruct Hsel as [[= -> ->] | ([k t] & Hin & -> & Hc & Hl)]; cbn in *.
  - intros peer_id u Hu. apply (Hall (peer_id, u)). by apply map_in_order_elem_of.
  - split_and!.
    + exists k. by apply map_in_order_elem_of.
    + lia.
    + intros peer_id u Hu. rewrite Hc. apply (Hall (peer_id, u)).
      by apply map_in_order_elem_of.
Qed.

(** X4.  A pending connection added for a peer that had none is erased
    again when its timer expires, which gives the directory back as it
    was; when the timer is cancelled ([operation_aborted]) the pending
    connection stays. *)
Theorem AddPending_then_timeout (peer_id : NodeId) (transport : TransportPtr)
    (mc : ManagedConnections) :
  FindPendingTransportWithNodeId peer_id (pendings_ mc) = None →
  (AddPending (new_PendingConnection peer_id transport) ≫=
     λ _, OnPendingTimeout false peer_id) mc =
    Returns tt mc [Timer_async_wait peer_id] ∧
  (AddPending (new_PendingConnection peer_id transport) ≫=
     λ _, OnPendingTimeout true peer_id) mc =
    Returns tt
      (set_pendings (pendings_ mc ++ [new_PendingConnection peer_id transport]) mc)
      [Timer_async_wait peer_id].
Proof.
  intros Hf. split.
  - erewrite bind_run by reflexivity. unfold OnPendingTimeout.
    rewrite RemovePending_run. cbn. rewrite erase_pending_app_new by done.
    by destruct mc.
  - erewrite bind_run by reflexivity. reflexivity.
Qed.

(** X5.  In a debug build, whatever was in [idle_transports_] before,
    after [OnConnectionAddedSlot] returns every idle transport is
    available: the closing block erases the others. *)
Theorem OnConnectionAddedSlot_debug_idle_available (peer_id : NodeId)
    (transport : TransportPtr) (temporary_connection : bool) (mc mc1 : ManagedConnections)
    (is_duplicate : bool) (calls : list Call) :
  OnConnectionAddedSlot false transports peer_id transport temporary_connection mc =
    Returns is_duplicate mc1 calls →
  idle_transports_available transports mc1.
Proof.
  unfold OnConnectionAddedSlot. intros Hrun.
  apply bind_Returns_inv in Hrun as (d & mc' & c1 & c2 & _ & Hrun & _).
  apply bind_Returns_inv in Hrun as ([] & mc'' & c3 & c4 & Herase & Hret & _).
  injection Hret as _ <- _.
  unfold erase_unavailable_idle_transports, modify in Herase.
  injection Herase as <- _.
  intros t. cbn. rewrite elem_of_filter. tauto.
Qed.

Lemma UpdateIdleTransports_debug_inv (t : TransportPtr) (mc mc1 : ManagedConnections)
    (calls : list Call) :
  UpdateIdleTransports false transports t mc = Returns tt mc1 calls →
  mc1 = set_idle_transports (refresh_idle transports t (idle_transports_ mc)) mc ∧
  calls = [] ∧
  (IsIdle (transports t) = true → IsAvailable (transports t) = true).
Proof.
  unfold UpdateIdleTransports, refresh_idle, assert.
  destruct (IsIdle (transports t)); run.
  - destruct (IsAvailable (transports t)); run; [| done]. by intros [= <- <-].
  - by intros [= <- <-].
Qed.

(** X6.  In a debug build [OnConnectionLostSlot] keeps the idle
    transports available: it returns only if the transport it may
    insert is available. *)
Theorem OnConnectionLostSlot_debug_idle_available (peer_id : NodeId)
    (transport : TransportPtr) (temporary_connection : bool) (mc mc1 : ManagedConnections)
    (calls : list Call) :
  idle_transports_available transports mc →
  OnConnectionLostSlot false transports peer_id transport temporary_connection mc =
    Returns tt mc1 calls →
  idle_transports_available transports mc1.
Proof.
  intros Hinv Hrun. unfold OnConnectionLostSlot in Hrun.
  apply bind_Returns_inv in Hrun as ([] & mc' & c1 & c2 & Hupdate & Hrun & _).
  apply UpdateIdleTransports_debug_inv in Hupdate as (-> & _ & Hav).
  assert (idle_transports_ mc1 =
          refresh_idle transports transport (idle_transports_ mc)) as Hidle.
  { destruct temporary_connection.
    - revert Hrun. run. by intros [= <- _].
    - rewrite (bind_run _ _ _ _ _ _ (RemovePending_run _ _)) in Hrun.
      revert Hrun. run.
      destruct (connections_ mc !! peer_id) as [other |]; run.
      + case_bool_decide; run; [done |].
        case_bool_decide; run; destruct (listener_ mc); run; by intros [= <- _].
      + by intros [= <- _]. }
  intros u. rewrite Hidle. by apply refresh_idle_available.
Qed.

(** X7.  A loss reported by a transport other than the one recorded for
    the peer: the debug build stops on the assertion; the release build
    goes on, erases the entry of the other transport, resets the
    bootstrap contact if it was that peer and notifies the listener. *)
Theorem OnConnectionLostSlot_other_transport (peer_id : NodeId)
    (transport other : TransportPtr) (mc : ManagedConnections) :
  connections_ mc !! peer_id = Some other →
  other ≠ transport →
  OnConnectionLostSlot false transports peer_id transport false mc =
    Aborts assertion_failed ∧
  OnConnectionLostSlot true transports peer_id transport false mc =
    Returns tt
      (mkManagedConnections (listener_ mc) (this_node_id_ mc)
         (if decide (id (chosen_bootstrap_contact_ mc) = peer_id)
          then Contact_default else chosen_bootstrap_contact_ mc)
         (delete peer_id (connections_ mc))
         (erase_pending peer_id (pendings_ mc))
         (refresh_idle transports transport (idle_transports_ mc))
         (nat_type_ mc))
      (match listener_ mc with
       | Some listener => [Listener_ConnectionLost listener peer_id]
       | None => []
       end).
Proof.
  intros Hc Hne. split.
  - unfold OnConnectionLostSlot, mbind at 1, M_bind.
    destruct (UpdateIdleTransports false transports transport mc)
      as [[] mc' calls' |] eqn:Hupdate.
    + apply UpdateIdleTransports_debug_inv in Hupdate as (-> & -> & _). cbn.
      erewrite bind_run by apply RemovePending_run. run. rewrite Hc.
      rewrite bool_decide_eq_true_2 by done. reflexivity.
    + revert Hupdate. unfold UpdateIdleTransports, assert.
      destruct (IsIdle _); run; [| done].
      destruct (IsAvailable _); run; [done |]. by intros [= <-].
  - unfold OnConnectionLostSlot.
    erewrite bind_run by (by apply UpdateIdleTransports_run). cbn.
    erewrite bind_run by apply RemovePending_run. run. rewrite Hc.
    rewrite bool_decide_eq_true_2 by done. unfold assert. run.
    destruct (decide (id (chosen_bootstrap_contact_ mc) = peer_id)) as [He | Hn].
    + rewrite bool_decide_eq_true_2 by done. run.
      destruct (listener_ mc) eqn:Hl; unfold set_chosen_bootstrap_contact; cbn;
        rewrite Hl; reflexivity.
    + rewrite bool_decide_eq_false_2 by congruence. run.
      destruct (listener_ mc) eqn:Hl; unfold set_connections; cbn;
        rewrite Hl; reflexivity.
Qed.

Lemma OnConnectionLostSlot_recorded (peer_id : NodeId) (transport : TransportPtr)
    (mc : ManagedConnections) :
  idle_implies_available NDEBUG transports transport →
  connections_ mc !! peer_id = Some transport →
  OnConnectionLostSlot NDEBUG transports peer_id transport false mc =
    Returns tt
      (mkManagedConnections (listener_ mc) (this_node_id_ mc)
         (if decide (id (chosen_bootstrap_contact_ mc) = peer_id)
          then Contact_default else chosen_bootstrap_contact_ mc)
         (delete peer_id (connections_ mc))
         (erase_pending peer_id (pendings_ mc))
         (refresh_idle transports transport (idle_transports_ mc))
         (nat_type_ mc))
      (match listener_ mc with
       | Some listener => [Listener_ConnectionLost listener peer_id]
       | None => []
       end).
Proof.
  intros Hd Hc. unfold OnConnectionLostSlot.
  erewrite bind_run by (by apply UpdateIdleTransports_run). cbn.
  erewrite bind_run by apply RemovePending_run. run. rewrite Hc.
  rewrite bool_decide_eq_false_2 by (intros Hne; by apply Hne).
  run.
  destruct (decide (id (chosen_bootstrap_contact_ mc) = peer_id)) as [He | Hne].
  - rewrite bool_decide_eq_true_2 by done. run.
    destruct (listener_ mc) eqn:Hl; unfold set_chosen_bootstrap_contact; cbn;
      rewrite Hl; reflexivity.
  - rewrite bool_decide_eq_false_2 by congruence. run.
    destruct (listener_ mc) eqn:Hl; unfold set_connections; cbn;
      rewrite Hl; reflexivity.
Qed.

(** X8.  A normal connection added and then lost on the same transport:
    the entry is recorded in between, [connections_] is afterwards what
    it was and the listener is notified once.  That transport is in the
    idle set afterwards exactly when it is idle; any other transport is
    in it exactly when it was before and, in a debug build, is
    available.  The one condition is what [UpdateIdleTransports]
    asserts of the transport in a debug build. *)
Theorem OnConnectionAdded_then_Lost (peer_id : NodeId) (transport : TransportPtr)
    (mc : ManagedConnections) :
  idle_implies_available NDEBUG transports transport →
  connections_ mc !! peer_id = None →
  ∃ mc1 mc2,
    OnConnectionAddedSlot NDEBUG transports peer_id transport false mc =
      Returns false mc1 [] ∧
    connections_ mc1 !! peer_id = Some transport ∧
    OnConnectionLostSlot NDEBUG transports peer_id transport false mc1 =
      Returns tt mc2
        (match listener_ mc with
         | Some listener => [Listener_ConnectionLost listener peer_id]
         | None => []
         end) ∧
    connections_ mc2 = connections_ mc ∧
    (transport ∈ idle_transports_ mc2 ↔ IsIdle (transports transport) = true) ∧
    (∀ u, u ≠ transport →
          u ∈ idle_transports_ mc2 ↔
          u ∈ idle_transports_ mc ∧ (NDEBUG = false → IsAvailable (transports u) = true)).
Proof.
  intros Hd Hc. eexists _, _. split_and!.
  - by apply OnConnectionAddedSlot_inserted.
  - cbn. apply lookup_insert_eq.
  - rewrite OnConnectionLostSlot_recorded; [reflexivity | done |].
    cbn. apply lookup_insert_eq.
  - cbn. rewrite delete_insert_eq. by apply delete_id.
  - cbn. unfold refresh_idle. destruct (IsIdle (transports transport)).
    + rewrite elem_of_union, elem_of_singleton. split; [done | by left].
    + rewrite elem_of_difference, elem_of_singleton. split; [tauto | done].
  - intros u Hu. cbn. unfold refresh_idle. destruct (IsIdle (transports transport)).
    + rewrite elem_of_union, elem_of_available_in_debug, elem_of_difference,
        !elem_of_singleton. tauto.
    + rewrite elem_of_difference, elem_of_available_in_debug, elem_of_difference,
        !elem_of_singleton. tauto.
Qed.

(** X9.  [DoRemove] asks the recorded transport to close the connection
    and itself leaves the directory as it is; once that transport has
    reported the loss the entry is gone, and [DoRemove] of that peer
    then does nothing. *)
Theorem DoRemove_then_lost (peer_id : NodeId) (transport : TransportPtr)
    (mc : ManagedConnections) :
  idle_implies_available NDEBUG transports transport →
  peer_id ≠ this_node_id_ mc →
  connections_ mc !! peer_id = Some transport →
  DoRemove peer_id mc =
    Returns tt mc [Transport_CloseConnection transport peer_id] ∧
  ∃ mc1 calls,
    OnConnectionLostSlot NDEBUG transports peer_id transport false mc =
      Returns tt mc1 calls ∧
    connections_ mc1 !! peer_id = None ∧
    DoRemove peer_id mc1 = Returns tt mc1 [].
Proof.
  intros Hd Hne Hc. split.
  - unfold DoRemove. run. rewrite bool_decide_eq_false_2 by done. by rewrite Hc.
  - eexists _, _. split_and!; [by apply OnConnectionLostSlot_recorded | |].
    + cbn. apply lookup_delete_eq.
    + unfold DoRemove. run. rewrite bool_decide_eq_false_2 by done.
      by rewrite lookup_delete_eq.
Qed.

(** X10.  [DoSend] never changes the directory.  It throws only when an
    empty handler is given with this node's own id; with an empty
    handler and another peer it returns without invoking anything but
    the transport's [Send]. *)
Theorem DoSend_keeps_directory (peer_id : NodeId) (message : Message) (handler : Functor)
    (mc : ManagedConnections) :
  (∀ mc1 calls,
     DoSend transports peer_id message handler mc = Returns tt mc1 calls → mc1 = mc) ∧
  (∀ f, DoSend transports peer_id message handler mc = Aborts f →
        f = bad_function_call ∧ peer_id = this_node_id_ mc ∧ handler = None) ∧
  (handler = None → peer_id ≠ this_node_id_ mc →
   DoSend transports peer_id message handler mc =
     Returns tt mc
       (match connections_ mc !! peer_id with
        | Some itr_second => [Transport_Send itr_second peer_id message None]
        | None => []
        end)).
Proof.
  split_and!.
  - intros mc1 calls. unfold DoSend. destruct handler; crunch; congruence.
  - intros f. unfold DoSend. destruct handler; crunch; try done.
    intros [= <-]. done.
  - intros -> Hne. unfold DoSend. run. rewrite bool_decide_eq_false_2 by done.
    destruct (connections_ mc !! peer_id); run; [| done].
    by destruct (Send _ _ _).
Qed.

(** X11.  [DoAdd] touches [pendings_] only: it adds no pending
    connection (the peers of the pending connections afterwards are a
    sublist of those before), so it keeps one pending connection per
    peer and keeps this node out of the directory. *)
Theorem DoAdd_keeps_invariants (peer : Contact) (handler : Functor)
    (mc mc1 : ManagedConnections) (calls : list Call) :
  DoAdd NDEBUG IsValid transports peer handler mc = Returns tt mc1 calls →
  connections_ mc1 = connections_ mc ∧
  idle_transports_ mc1 = idle_transports_ mc ∧
  chosen_bootstrap_contact_ mc1 = chosen_bootstrap_contact_ mc ∧
  node_id <$> pendings_ mc1 `sublist_of` node_id <$> pendings_ mc ∧
  (one_pending_per_peer (pendings_ mc) → one_pending_per_peer (pendings_ mc1)) ∧
  (this_node_not_in_directory mc → this_node_not_in_directory mc1).
Proof.
  intros Hrun.
  assert (connections_ mc1 = connections_ mc ∧
          idle_transports_ mc1 = idle_transports_ mc ∧
          chosen_bootstrap_contact_ mc1 = chosen_bootstrap_contact_ mc ∧
          this_node_id_ mc1 = this_node_id_ mc ∧
          node_id <$> pendings_ mc1 `sublist_of` node_id <$> pendings_ mc)
    as (Hc & Hi & Hb & Hid & Hsub).
  { revert Hrun. unfold DoAdd. run.
    case_bool_decide; [destruct handler; run; [by intros [= <- _] | done] |].
    destruct (FindPendingTransportWithNodeId _ _) as [[itr pending] |] eqn:Hf.
    - apply list_find_Some in Hf as (Hl & Hn & _).
      destruct (connecting pending); [destruct handler; run; [by intros [= <- _] | done] |].
      run.
      assert (node_id <$> <[itr := mkPendingConnection (node_id pending)
                                     (pending_transport pending) true]> (pendings_ mc) =
              node_id <$> pendings_ mc) as Hids by (by eapply fmap_node_id_insert).
      destruct (GetConnection _ _) as [connection |]; run.
      + destruct (_ || _).
        * destruct (bool_decide (state connection = kBootstrapping)); run.
          -- destruct (assert _ _ _) as [[] mc' calls' |] eqn:Ha; [| done].
             apply assert_Returns_inv in Ha as (-> & -> & _).
             destruct handler; run; [| done]. intros [= <- _]. cbn. by rewrite Hids.
          -- destruct handler; run; [| done]. intros [= <- _]. cbn. by rewrite Hids.
        * destruct handler; run; [| done]. intros [= <- _]. cbn. split_and!; try done.
          rewrite delete_insert_same. apply fmap_sublist, sublist_delete.
      + intros [= <- _]. cbn. by rewrite Hids.
    - case_bool_decide; destruct handler; run; try done; by intros [= <- _]. }
  split_and!; try done.
  - unfold one_pending_per_peer. intros Hnodup. by eapply sublist_NoDup.
  - intros [Hthis Hpend]. split; [by rewrite Hc, Hid |].
    intros pending Hin. rewrite Hid. intros Heq.
    assert (node_id pending ∈ node_id <$> pendings_ mc) as Hin'.
    { eapply elem_of_sublist; [| exact Hsub]. by apply list_elem_of_fmap_2. }
    apply list_elem_of_fmap in Hin' as (pending' & Heq' & Hin').
    apply (Hpend pending' Hin'). congruence.
Qed.

(** X12.  The bootstrap callback invokes the handler exactly once, as
    its last call, with [failed_to_bootstrap] exactly when the result is
    not [kSuccess]; the transport is closed exactly in that case, and
    then the directory is left as it is. *)
Theorem on_bootstrap_invokes_handler_once (transport : TransportPtr)
    (external_address : Address) (h : N) (bootstrap_result : ReturnCode)
    (chosen_contact : Contact) (mc : ManagedConnections) :
  ∃ mc1 before,
    on_bootstrap IsValid transports transport external_address (Some h) bootstrap_result
      chosen_contact mc =
      Returns tt mc1
        (before ++
         [BootstrapHandler_invoked h
            (if decide (bootstrap_result = kSuccess) then None
             else Some failed_to_bootstrap)
            chosen_contact]) ∧
    (∀ c, c ∈ before →
          c = Transport_Close transport ∨
          ∃ e, c = Transport_SetBestGuessExternalEndpoint transport e) ∧
    (Transport_Close transport ∈ before ↔ bootstrap_result ≠ kSuccess) ∧
    (bootstrap_result ≠ kSuccess → mc1 = mc ∧ before = [Transport_Close transport]).
Proof.
  destruct (decide (bootstrap_result = kSuccess)) as [-> | Hne].
  - rewrite on_bootstrap_success. eexists _, _. split; [reflexivity |].
    destruct (negb _ && negb _); split_and!; try done.
    + intros c [-> | []%elem_of_nil]%elem_of_cons. right. by eexists.
    + split; [| done]. by intros [[=] | []%elem_of_nil]%elem_of_cons.
    + intros c []%elem_of_nil.
    + split; [| done]. by intros []%elem_of_nil.
  - unfold on_bootstrap. rewrite bool_decide_eq_true_2 by done. run.
    eexists _, [_]. split; [reflexivity |]. split_and!; try done.
    + intros c [-> | []%elem_of_nil]%elem_of_cons. by left.
    + split; [done | intros _; left].
Qed.


(** X14.  [CheckBootstrappingParameters] gives [kSuccess] exactly for a
    listener that is not null, a valid node id and a bootstrap list that
    is not empty, and [kNoBootstrapEndpoints] exactly when only the list
    is at fault. *)
Theorem CheckBootstrappingParameters_accepts (bootstrap_list : list Contact)
    (listener : option Listener) (this_node_id : NodeId) :
  kInvalidParameter ≠ kSuccess →
  kNoBootstrapEndpoints ≠ kSuccess →
  (CheckBootstrappingParameters kInvalidParameter kNoBootstrapEndpoints
     bootstrap_list listener this_node_id = kSuccess ↔
   is_Some listener ∧ NodeId_IsValid this_node_id = true ∧ bootstrap_list ≠ []) ∧
  (kInvalidParameter ≠ kNoBootstrapEndpoints →
   CheckBootstrappingParameters kInvalidParameter kNoBootstrapEndpoints
     bootstrap_list listener this_node_id = kNoBootstrapEndpoints ↔
   is_Some listener ∧ NodeId_IsValid this_node_id = true ∧ bootstrap_list = []).
Proof.
  intros Hinvalid Hnone. unfold CheckBootstrappingParameters, is_Some.
  destruct listener as [l |]; [destruct (NodeId_IsValid this_node_id); cbn;
                                [case_bool_decide as Hempty |] |].
  all: split; [| intros Hdiff]; split; intros H; try done.
  all: try (destruct H as ((x & Hx) & Hv & Hl); congruence).
  all: split_and!; eauto; congruence.
Qed.

(** X15.  [TryToDetermineLocalEndpoint]: on success [local_ip_] is the
    address of the endpoint handed back, which is the given endpoint if
    that was valid and else the local IP with port 0; it fails exactly
    when the given endpoint is invalid and no local IP is found, and
    then leaves the endpoint as given. *)
Theorem TryToDetermineLocalEndpoint_result (GetLocalIp : Address) (local_endpoint : Endpoint) :
  kFailedToGetLocalAddress ≠ kSuccess →
  let '(code, local_ip, endpoint) :=
    TryToDetermineLocalEndpoint IsValid kFailedToGetLocalAddress GetLocalIp local_endpoint in
  (code = kSuccess ∨ code = kFailedToGetLocalAddress) ∧
  (code = kSuccess → address endpoint = local_ip) ∧
  (code = kSuccess → IsValid local_endpoint = true → endpoint = local_endpoint) ∧
  (code = kSuccess → IsValid local_endpoint = false →
   endpoint = mkEndpoint GetLocalIp 0%N ∧ is_unspecified GetLocalIp = false) ∧
  (code = kFailedToGetLocalAddress ↔
   IsValid local_endpoint = false ∧ is_unspecified GetLocalIp = true) ∧
  (code = kFailedToGetLocalAddress →
   endpoint = local_endpoint ∧ is_unspecified local_ip = true).
Proof.
  clear transports. intros Hfail. unfold TryToDetermineLocalEndpoint.
  destruct (IsValid local_endpoint); cbn;
    [| destruct (is_unspecified GetLocalIp) eqn:Hu; cbn].
  all: split_and!; try split; intros; try done; try congruence; try tauto; auto.
  all: try (destruct H; congruence).
Qed.

Lemma foldl_filter_elem_of (range : list TransportPtr) :
  ∀ (bootstrap_list : list Contact) (entry : Contact),
  entry ∈ foldl (λ bootstrap_list element,
                   filter (λ entry, local (endpoint_pair entry) ≠
                                    local_endpoint (transports element))
                          bootstrap_list)
                bootstrap_list range ↔
  entry ∈ bootstrap_list ∧
  ∀ element, element ∈ range →
             local (endpoint_pair entry) ≠ local_endpoint (transports element).
Proof.
  induction range as [| t range IH]; intros bootstrap_list entry; cbn.
  - split; [intros H; split; [done |] | tauto]. intros element []%elem_of_nil.
  - rewrite IH, list_elem_of_filter. split.
    + intros ((Hne & Hin) & Hrest). split; [done |].
      intros element [-> | Hin']%elem_of_cons; auto.
    + intros (Hin & Hall). split_and!; [| done |].
      * apply Hall. left.
      * intros element Hin'. apply Hall. by right.
Qed.

Lemma foldl_filter_sublist (range : list TransportPtr) :
  ∀ (bootstrap_list : list Contact),
  foldl (λ bootstrap_list element,
           filter (λ entry, local (endpoint_pair entry) ≠
                            local_endpoint (transports element))
                  bootstrap_list)
        bootstrap_list range `sublist_of` bootstrap_list.
Proof.
  induction range as [| t range IH]; intros bootstrap_list; cbn; [done |].
  etrans; [apply IH | apply sublist_filter].
Qed.

(** X16.  Before bootstrapping, [StartNewTransport] erases from the
    bootstrap list exactly the contacts whose local endpoint is that of
    one of this node's idle transports, and keeps the others in their
    order. *)
Theorem erase_idle_endpoints_spec (mc : ManagedConnections) (bootstrap_list : list Contact) :
  erase_idle_endpoints transports mc bootstrap_list `sublist_of` bootstrap_list ∧
  ∀ entry,
    entry ∈ erase_idle_endpoints transports mc bootstrap_list ↔
    entry ∈ bootstrap_list ∧
    ∀ t, t ∈ idle_transports_ mc →
         local (endpoint_pair entry) ≠ local_endpoint (transports t).
Proof.
  unfold erase_idle_endpoints. split; [apply foldl_filter_sublist |].
  intros entry. rewrite foldl_filter_elem_of.
  split; intros [Hin Hall]; (split; [done |]); intros t Ht; apply Hall;
    by apply set_in_order_elem_of.
Qed.

(** X17.  The destructor closes the transports of the connections, of
    the pending connections and of the idle set, nothing else, and
    leaves the three indices empty. *)
Theorem destructor_scope_closes_all (mc : ManagedConnections) :
  ∃ calls,
    destructor_scope mc =
      Returns tt
        (mkManagedConnections (listener_ mc) (this_node_id_ mc)
           (chosen_bootstrap_contact_ mc) ∅ [] ∅ (nat_type_ mc)) calls ∧
    (∀ c, c ∈ calls → ∃ t, c = Transport_Close t) ∧
    ∀ t, Transport_Close t ∈ calls ↔
         (∃ peer_id, connections_ mc !! peer_id = Some t) ∨
         (∃ pending, pending ∈ pendings_ mc ∧ pending_transport pending = t) ∨
         t ∈ idle_transports_ mc.
Proof.
  eexists. split_and!.
  - unfold destructor_scope. run. rewrite !Close_each_run. cbn. reflexivity.
  - intros c. rewrite !elem_of_app, !list_elem_of_fmap.
    intros [(t & -> & _) | [(t & -> & _) | [(t & -> & _) | []%elem_of_nil]]]; by eexists.
  - intros t. rewrite app_nil_r, !elem_of_app, !elem_of_Close_calls.
    rewrite map_in_order_values, set_in_order_elem_of, list_elem_of_fmap.
    split; intros [H | [H | H]]; auto.
    + right. left. destruct H as (pending & -> & Hin). by exists pending.
    + right. left. destruct H as (pending & Hin & <-). by exists pending.
Qed.

Lemma Close_bootstrap_connections_run (range : list (NodeId * TransportPtr))
    (mc : ManagedConnections) :
  (NDEBUG = false → Forall (is_bootstrap_connection transports) range) →
  Close_bootstrap_connections NDEBUG transports range mc =
    Returns tt mc (Transport_Close <$> range.*2).
Proof.
  induction range as [| [k t] range IH]; intros Hall; [done |].
  cbn [Close_bootstrap_connections].
  rewrite (bind_run _ _ mc tt mc []); last first.
  { apply assert_run. intros Hn. specialize (Hall Hn).
    apply Forall_cons in Hall as [(connection & -> & ->) _]. cbn.
    by apply bool_decide_eq_true_2. }
  erewrite bind_run by reflexivity.
  rewrite IH; [done |]. intros Hn. specialize (Hall Hn). by apply Forall_cons in Hall as [_ ?].
Qed.

Lemma Close_bootstrap_connections_aborts (range : list (NodeId * TransportPtr))
    (mc : ManagedConnections) :
  Exists (λ connection_details, ¬ (is_bootstrap_connection transports) connection_details) range →
  Close_bootstrap_connections false transports range mc = Aborts assertion_failed.
Proof.
  induction range as [| [k t] range IH]; intros Hex; [by apply Exists_nil in Hex |].
  cbn [Close_bootstrap_connections]. unfold mbind at 1, M_bind.
  destruct (assert false _ mc) as [[] mc' calls' |] eqn:Ha.
  - apply assert_Returns_inv in Ha as (-> & -> & Hcond). specialize (Hcond eq_refl).
    apply Exists_cons in Hex as [Hbad | Hex].
    + exfalso. apply Hbad. unfold is_bootstrap_connection. cbn in *.
      destruct (GetConnection (transports t) k) as [connection |]; [| done].
      exists connection. split; [done |]. by apply bool_decide_eq_true_1 in Hcond.
    + erewrite bind_run by reflexivity. by rewrite IH.
  - revert Ha. unfold assert. by destruct (match _ with Some _ => _ | None => _ end).
Qed.

(** X18.  [ClearConnectionsAndIdleTransports] empties the three indices
    and closes the transports of the connections and of the idle set,
    but not a transport that only a pending connection refers to.  In a
    debug build every connection is assumed to be a bootstrapping one. *)
Theorem ClearConnectionsAndIdleTransports_closes (mc : ManagedConnections) :
  (NDEBUG = false →
   ∀ peer_id t, connections_ mc !! peer_id = Some t →
                is_bootstrap_connection transports (peer_id, t)) →
  ∃ calls,
    ClearConnectionsAndIdleTransports NDEBUG transports mc =
      Returns tt
        (mkManagedConnections (listener_ mc) (this_node_id_ mc)
           (chosen_bootstrap_contact_ mc) ∅ [] ∅ (nat_type_ mc)) calls ∧
    (∀ c, c ∈ calls → ∃ t, c = Transport_Close t) ∧
    ∀ t, Transport_Close t ∈ calls ↔
         (∃ peer_id, connections_ mc !! peer_id = Some t) ∨ t ∈ idle_transports_ mc.
Proof.
  intros Hd.
  assert (ClearConnectionsAndIdleTransports NDEBUG transports mc =
          Returns tt
            (mkManagedConnections (listener_ mc) (this_node_id_ mc)
               (chosen_bootstrap_contact_ mc) ∅ [] ∅ (nat_type_ mc))
            ((Transport_Close <$> (map_in_order (connections_ mc)).*2) ++
             (Transport_Close <$> set_in_order (idle_transports_ mc)))) as Hrun.
  { unfold ClearConnectionsAndIdleTransports. run.
    case_bool_decide as Hempty; run.
    - rewrite Close_each_run. unfold set_idle_transports, set_pendings. cbn.
      rewrite Hempty, map_in_order_empty, app_nil_r. reflexivity.
    - rewrite Close_bootstrap_connections_run; last first.
      { intros Hn. apply Forall_forall. intros [k t] Hin.
        apply (Hd Hn). by apply map_in_order_elem_of. }
      cbn. rewrite Close_each_run. cbn. by rewrite !app_nil_r. }
  eexists. split; [exact Hrun |]. split.
  - intros c. rewrite elem_of_app, !list_elem_of_fmap.
    intros [(t & -> & _) | (t & -> & _)]; by eexists.
  - intros t. rewrite elem_of_app, !elem_of_Close_calls.
    by rewrite map_in_order_values, set_in_order_elem_of.
Qed.

(** X19.  In a debug build [ClearConnectionsAndIdleTransports] stops on
    its assertion when some connection is not a bootstrapping one. *)
Theorem ClearConnectionsAndIdleTransports_debug_aborts (mc : ManagedConnections)
    (peer_id : NodeId) (t : TransportPtr) :
  connections_ mc !! peer_id = Some t →
  ¬ is_bootstrap_connection transports (peer_id, t) →
  ClearConnectionsAndIdleTransports false transports mc = Aborts assertion_failed.
Proof.
  intros Hc Hbad. unfold ClearConnectionsAndIdleTransports. run.
  rewrite bool_decide_eq_false_2; last first.
  { intros Hempty. by rewrite Hempty, lookup_empty in Hc. }
  cbn. rewrite Close_bootstrap_connections_aborts; [done |].
  apply Exists_exists. exists (peer_id, t). split; [| done].
  by apply map_in_order_elem_of.
Qed.

(** X20.  [OnNatDetectionRequestedSlot] answers port 0 and pings no one
    when the NAT type is unknown or symmetric, or when every connection
    is on the asking transport's local endpoint.  Otherwise the release
    build answers the external port of a connection's transport with
    another local endpoint and pings the peer from it, and the debug
    build stops on the assertion. *)
Theorem OnNatDetectionRequestedSlot_cases (this_local_endpoint : Endpoint)
    (peer_id : NodeId) (peer_endpoint : Endpoint) (mc : ManagedConnections) :
  (nat_type_ mc ≠ kOther →
   OnNatDetectionRequestedSlot NDEBUG transports this_local_endpoint peer_id peer_endpoint mc
     = Returns (0%N, None) mc []) ∧
  ((∀ k t, connections_ mc !! k = Some t →
           local_endpoint (transports t) = this_local_endpoint) →
   OnNatDetectionRequestedSlot NDEBUG transports this_local_endpoint peer_id peer_endpoint mc
     = Returns (0%N, None) mc []) ∧
  (nat_type_ mc = kOther →
   (∃ k t, connections_ mc !! k = Some t ∧
           local_endpoint (transports t) ≠ this_local_endpoint) →
   if NDEBUG then
     ∃ k t, connections_ mc !! k = Some t ∧
            local_endpoint (transports t) ≠ this_local_endpoint ∧
            OnNatDetectionRequestedSlot NDEBUG transports this_local_endpoint peer_id
              peer_endpoint mc =
              Returns (port (external_endpoint (transports t)),
                       Some (t, peer_id, peer_endpoint)) mc []
   else
     OnNatDetectionRequestedSlot NDEBUG transports this_local_endpoint peer_id
       peer_endpoint mc = Aborts assertion_failed).
Proof.
  split_and!.
  - intros Hnat. unfold OnNatDetectionRequestedSlot. run.
    destruct (nat_type_ mc); try done; by repeat case_bool_decide.
  - intros Hsame. unfold OnNatDetectionRequestedSlot. run.
    destruct (_ || _); [done |].
    destruct (list_find _ _) as [[i [k t]] |] eqn:Hfind; [| done].
    apply list_find_Some in Hfind as (Hi & Hne & _). exfalso. apply Hne. cbn.
    symmetry. apply (Hsame k). apply map_in_order_elem_of. by eapply list_elem_of_lookup_2.
  - intros Hnat (k & t & Hc & Hne). unfold OnNatDetectionRequestedSlot. run.
    rewrite Hnat. repeat (case_bool_decide; try done). cbn.
    destruct (list_find _ _) as [[i [k' t']] |] eqn:Hfind.
    + apply list_find_Some in Hfind as (Hi & Hne' & _). cbn in Hne'.
      unfold assert. destruct NDEBUG; run; [| done].
      exists k', t'. split_and!; [| congruence | done].
      apply map_in_order_elem_of. by eapply list_elem_of_lookup_2.
    + apply list_find_None in Hfind. rewrite Forall_forall in Hfind.
      exfalso. apply (Hfind (k, t)); [by apply map_in_order_elem_of |]. cbn. congruence.
Qed.

End FurtherProperties.

(** ** Contacts to bootstrap a new transport from *)

Lemma key_not_before (range rest : list (NodeId * TransportPtr))
    (element e : NodeId * TransportPtr) :
  NoDup (range ++ element :: rest).*1 → e ∈ range → e.1 ≠ element.1.
Proof.
  rewrite fmap_app, fmap_cons. intros Hnodup He Heq.
  apply NoDup_app in Hnodup as (_ & Hdisjoint & _).
  apply (Hdisjoint e.1); [by apply list_elem_of_fmap_2 | rewrite Heq; left].
Qed.

Lemma map_in_order_NoDup_keys (m : gmap NodeId TransportPtr) : NoDup (map_in_order m).*1.
Proof. unfold map_in_order. rewrite merge_sort_Permutation. apply NoDup_fst_map_to_list. Qed.

Lemma map_in_order_length (m : gmap NodeId TransportPtr) :
  length (map_in_order m) = size m.
Proof.
  unfold map_in_order. rewrite merge_sort_Permutation. apply length_map_to_list.
Qed.

Section BootstrapEndpointsProperties.

Variable transports : TransportPtr → Transport.
Variable OnPrivateNetwork : Endpoint → bool.
Variable PeerNodeId : TransportPtr → NodeId → NodeId.
Variable PeerPublicKey : TransportPtr → NodeId → PublicKey.
Variable ThisEndpointAsSeenByPeer : TransportPtr → NodeId → Endpoint.
Variable Contact_of_endpoint : NodeId → Endpoint → PublicKey → Contact.
Variable random_shuffle : nat → list Contact → list Contact.

(** What one turn of the loop does. *)
Lemma GetBootstrapEndpoints_body_cases locals element :
  let locals' := GetBootstrapEndpoints_body transports OnPrivateNetwork PeerNodeId PeerPublicKey
      ThisEndpointAsSeenByPeer Contact_of_endpoint locals element in
  (GetConnection (transports element.2) element.1 = None ∧ locals' = locals) ∨
  (∃ connection,
     GetConnection (transports element.2) element.1 = Some connection ∧
     PeerEndpoint connection ∈ non_duplicates locals ∧ locals' = locals) ∨
  (∃ connection,
     GetConnection (transports element.2) element.1 = Some connection ∧
     (PeerEndpoint connection ∉ non_duplicates locals) ∧
     non_duplicates locals' = PeerEndpoint connection :: non_duplicates locals ∧
     ((OnPrivateNetwork (PeerEndpoint connection) = true ∧
       bootstrap_list locals' = bootstrap_list locals ∧
       (∃ peer, contact_of transports PeerNodeId PeerPublicKey
           Contact_of_endpoint element peer ∧
                secondary_list locals' = secondary_list locals ++ [peer]) ∧
       this_external_address locals' = this_external_address locals ∧
       external_address_consistent locals' = external_address_consistent locals) ∨
      (OnPrivateNetwork (PeerEndpoint connection) = false ∧
       (∃ peer, contact_of transports PeerNodeId PeerPublicKey
           Contact_of_endpoint element peer ∧
                bootstrap_list locals' = bootstrap_list locals ++ [peer]) ∧
       secondary_list locals' = secondary_list locals ∧
       (if is_unspecified (this_external_address locals)
        then this_external_address locals' = seen_address ThisEndpointAsSeenByPeer element ∧
             external_address_consistent locals' = external_address_consistent locals
        else this_external_address locals' = this_external_address locals ∧
             external_address_consistent locals' =
               (if decide (this_external_address locals =
                   seen_address ThisEndpointAsSeenByPeer element)
                then external_address_consistent locals else false))))).
Proof.
  unfold GetBootstrapEndpoints_body, seen_address, contact_of. cbn.
  destruct (GetConnection _ _) as [connection |] eqn:Hget; [| by left].
  case_bool_decide as Hdup; [right; left; by exists connection |].
  right. right. exists connection. split_and!; try done.
  - by repeat case_match.
  - destruct (OnPrivateNetwork _) eqn:Hprivate; [left | right]; cbn.
    + split_and!; try done. eexists. split; [by eexists | done].
    + destruct (is_unspecified (this_external_address locals)) eqn:Hu.
      * split_and!; try done. eexists. split; [by eexists | done].
      * case_bool_decide as Hdiff; cbn.
        -- split_and!; try done; [eexists; split; [by eexists | done] |].
           by rewrite decide_False.
        -- split_and!; try done; [eexists; split; [by eexists | done] |].
           by rewrite decide_True.
Qed.

Lemma GetBootstrapEndpoints_loop_invariant (bootstrap_list_in : list Contact)
    (this_external_address_in : Address) (all : list (NodeId * TransportPtr))
    (range : list (NodeId * TransportPtr)) :
  NoDup all.*1 →
  ∀ rest, all = range ++ rest →
  let locals :=
    foldl (GetBootstrapEndpoints_body transports OnPrivateNetwork PeerNodeId
             PeerPublicKey ThisEndpointAsSeenByPeer Contact_of_endpoint)
      (mkBootstrapEndpoints bootstrap_list_in [] [] this_external_address_in true) range in
  (∀ endpoint, endpoint ∈ non_duplicates locals →
     ∃ element connection,
       element ∈ range ∧
       GetConnection (transports element.2) element.1 = Some connection ∧
       PeerEndpoint connection = endpoint) ∧
  (∀ contact, contact ∈ bootstrap_list locals →
     contact ∈ bootstrap_list_in ∨
     ∃ element, element ∈ range ∧ public_peer transports OnPrivateNetwork element ∧
       contact_of transports PeerNodeId PeerPublicKey Contact_of_endpoint element contact) ∧
  (∀ contact, contact ∈ secondary_list locals →
     ∃ element, element ∈ range ∧ private_peer transports OnPrivateNetwork element ∧
       contact_of transports PeerNodeId PeerPublicKey Contact_of_endpoint element contact) ∧
  length (bootstrap_list locals) + length (secondary_list locals) ≤
    length bootstrap_list_in + length range ∧
  (is_unspecified (this_external_address locals) = false →
     this_external_address locals = this_external_address_in ∨
     ∃ element, element ∈ range ∧ public_peer transports OnPrivateNetwork element ∧
                seen_address ThisEndpointAsSeenByPeer element = this_external_address locals) ∧
  (external_address_consistent locals = true →
     ∀ element, element ∈ range → public_peer transports OnPrivateNetwork element →
       unshared_endpoint transports all element →
       seen_address ThisEndpointAsSeenByPeer element = this_external_address locals ∨
       is_unspecified (seen_address ThisEndpointAsSeenByPeer element) = true).
Proof.
  intros Hnodup. induction range as [| element range IH] using rev_ind; intros rest Hall.
  - cbn. split_and!.
    + intros endpoint []%elem_of_nil.
    + intros contact Hin. by left.
    + intros contact []%elem_of_nil.
    + lia.
    + intros _. by left.
    + intros _ element []%elem_of_nil.
  - rewrite foldl_app. cbn [foldl].
    specialize (IH (element :: rest)). rewrite <- app_assoc in Hall.
    change (all = range ++ element :: rest) in Hall.
    specialize (IH Hall). cbv zeta in IH.
    set (locals := foldl (GetBootstrapEndpoints_body _ _ _ _ _ _) _ range) in *.
    destruct IH as (Hnd & Hbl & Hsl & Hlen & Haddr & Hcons).
    rewrite length_app. cbn [length].
    assert (∀ e, e ∈ range → e ∈ range ++ [element]) as Hold
      by (intros e He; apply elem_of_app; by left).
    assert (element ∈ range ++ [element]) as Hnew
      by (apply elem_of_app; right; left).
    assert (∀ endpoint, endpoint ∈ non_duplicates locals →
              ∃ e connection, e ∈ range ++ [element] ∧
                GetConnection (transports e.2) e.1 = Some connection ∧
                PeerEndpoint connection = endpoint) as Hnd_old.
    { intros endpoint Hin. destruct (Hnd endpoint Hin) as (e & c & He & Hc & Hep).
      exists e, c. auto. }
    assert (∀ contact, contact ∈ bootstrap_list locals →
              contact ∈ bootstrap_list_in ∨
              ∃ e, e ∈ range ++ [element] ∧ public_peer transports OnPrivateNetwork e ∧
                contact_of transports PeerNodeId PeerPublicKey Contact_of_endpoint e contact)
      as Hbl_old.
    { intros contact Hin. destruct (Hbl contact Hin) as [? | (e & He & Hp & Hc)];
        [by left | right]. exists e. auto. }
    assert (∀ contact, contact ∈ secondary_list locals →
              ∃ e, e ∈ range ++ [element] ∧ private_peer transports OnPrivateNetwork e ∧
                contact_of transports PeerNodeId PeerPublicKey Contact_of_endpoint e contact)
      as Hsl_old.
    { intros contact Hin. destruct (Hsl contact Hin) as (e & He & Hp & Hc).
      exists e. auto. }
    assert (is_unspecified (this_external_address locals) = false →
            this_external_address locals = this_external_address_in ∨
            ∃ e, e ∈ range ++ [element] ∧ public_peer transports OnPrivateNetwork e ∧
                 seen_address ThisEndpointAsSeenByPeer e = this_external_address locals)
      as Haddr_old.
    { intros Hu. destruct (Haddr Hu) as [? | (e & He & Hp & Hs)]; [by left | right].
      exists e. auto. }
    pose proof (GetBootstrapEndpoints_body_cases locals element) as Hstep.
    cbv zeta in Hstep.
    destruct Hstep as [[Hnone ->] | [(connection & Hget & Hseen & ->) |
                       (connection & Hget & Hfresh & Hnd' & Hstep)]].
    + (* no connection *)
      split_and!; try done; [lia |].
      intros Hc e [He | ->%list_elem_of_singleton]%elem_of_app Hpublic Hunshared;
        [by apply Hcons |].
      destruct Hpublic as (connection & Hget & _). congruence.
    + (* an endpoint met before *)
      split_and!; try done; [lia |].
      intros Hc e [He | ->%list_elem_of_singleton]%elem_of_app Hpublic Hunshared;
        [by apply Hcons |].
      exfalso. destruct (Hnd _ Hseen) as (e & c & He & Hgete & Hep).
      apply (key_not_before range rest element e); [by rewrite <- Hall | done |].
      apply (Hunshared e connection c); [| done | done | done].
      rewrite Hall. apply elem_of_app. by left.
    + destruct Hstep as [(Hprivate & Hbl' & (peer & Hpeer & Hsl') & Haddr' & Hcons') |
                         (Hpublic & (peer & Hpeer & Hbl') & Hsl' & Hupdate)].
      * (* a peer on a private network *)
        rewrite Hnd', Hbl', Hsl', Haddr', Hcons'. rewrite length_app. cbn [length].
        split_and!; try done.
        -- intros endpoint [-> | Hin]%elem_of_cons; [| by apply Hnd_old].
           exists element, connection. auto.
        -- intros contact [Hin | ->%list_elem_of_singleton]%elem_of_app;
             [by apply Hsl_old |].
           exists element. split_and!; [done | | done]. by exists connection.
        -- lia.
        -- intros Hc e [He | ->%list_elem_of_singleton]%elem_of_app Hp Hunshared;
             [by apply Hcons |].
           destruct Hp as (connection' & Hget' & Hp). congruence.
      * (* a peer on a public network *)
        rewrite Hnd', Hbl', Hsl'. rewrite length_app. cbn [length].
        assert (public_peer transports OnPrivateNetwork element) as Hpublic_element
          by (by exists connection).
        split_and!; try done.
        -- intros endpoint [-> | Hin]%elem_of_cons; [| by apply Hnd_old].
           exists element, connection. auto.
        -- intros contact [Hin | ->%list_elem_of_singleton]%elem_of_app;
             [by apply Hbl_old |].
           right. exists element. auto.
        -- lia.
        -- destruct (is_unspecified (this_external_address locals)) eqn:Hu.
           ++ destruct Hupdate as [-> _]. intros _. right. exists element. auto.
           ++ destruct Hupdate as [-> _]. intros _. by apply Haddr_old.
        -- destruct (is_unspecified (this_external_address locals)) eqn:Hu.
           ++ destruct Hupdate as [-> ->].
              intros Hc e [He | ->%list_elem_of_singleton]%elem_of_app Hp Hunshared;
                [| by left].
              right. destruct (Hcons Hc e He Hp Hunshared) as [-> | ?]; done.
           ++ destruct Hupdate as [-> ->]. case_decide as Hsame; [| done].
              intros Hc e [He | ->%list_elem_of_singleton]%elem_of_app Hp Hunshared;
                [by apply Hcons | by left].
Qed.
Lemma GetBootstrapEndpoints_loop_keeps_input (bootstrap_list_in : list Contact)
    (this_external_address_in : Address) (range : list (NodeId * TransportPtr)) :
  let locals :=
    foldl (GetBootstrapEndpoints_body transports OnPrivateNetwork PeerNodeId
             PeerPublicKey ThisEndpointAsSeenByPeer Contact_of_endpoint)
      (mkBootstrapEndpoints bootstrap_list_in [] [] this_external_address_in true) range in
  (∃ added, bootstrap_list locals = bootstrap_list_in ++ added) ∧
  (is_unspecified this_external_address_in = false →
   this_external_address locals = this_external_address_in).
Proof.
  induction range as [| element range IH] using rev_ind.
  - cbn. split; [| done]. exists []. by rewrite app_nil_r.
  - rewrite foldl_app. cbn [foldl]. cbv zeta in IH.
    set (locals := foldl (GetBootstrapEndpoints_body _ _ _ _ _ _) _ range) in *.
    destruct IH as [(added & Hadded) Haddr].
    pose proof (GetBootstrapEndpoints_body_cases locals element) as Hstep.
    cbv zeta in Hstep.
    destruct Hstep as [[_ ->] | [(connection & _ & _ & ->) |
                       (connection & _ & _ & _ & Hstep)]];
      [by eauto | by eauto |].
    destruct Hstep as [(_ & -> & _ & -> & _) | (_ & (peer & _ & ->) & _ & Hupdate)];
      [by eauto |].
    split.
    + exists (added ++ [peer]). by rewrite Hadded, app_assoc.
    + intros Hgiven. specialize (Haddr Hgiven). rewrite Haddr, Hgiven in Hupdate.
      destruct Hupdate as [-> _]. done.
Qed.

(** X23.  [GetBootstrapEndpoints] and the external address.  When the address
    handed back is a specified one, it is the address the caller passed in or
    the address under which some peer on a public network sees this node, and
    every public peer whose endpoint no other connection shares sees this node
    under that address or under an unspecified one; a specified address that
    was passed in is never replaced by another specified one. *)
Theorem GetBootstrapEndpoints_external_address (mc : ManagedConnections)
    (bootstrap_list_in : list Contact) (this_external_address_in : Address) :
  let result := GetBootstrapEndpoints transports OnPrivateNetwork PeerNodeId PeerPublicKey
      ThisEndpointAsSeenByPeer Contact_of_endpoint random_shuffle mc bootstrap_list_in
      this_external_address_in in
  is_unspecified result.2 = false →
  (result.2 = this_external_address_in ∨
   is_unspecified this_external_address_in = true ∧
   ∃ peer_id transport,
     connections_ mc !! peer_id = Some transport ∧
     public_peer transports OnPrivateNetwork (peer_id, transport) ∧
     seen_address ThisEndpointAsSeenByPeer (peer_id, transport) = result.2) ∧
  (∀ peer_id transport,
     connections_ mc !! peer_id = Some transport →
     public_peer transports OnPrivateNetwork (peer_id, transport) →
     unshared_endpoint transports (map_in_order (connections_ mc)) (peer_id, transport) →
     seen_address ThisEndpointAsSeenByPeer (peer_id, transport) = result.2 ∨
     is_unspecified (seen_address ThisEndpointAsSeenByPeer (peer_id, transport)) = true).
Proof.
  unfold GetBootstrapEndpoints. cbn.
  pose proof (GetBootstrapEndpoints_loop_invariant bootstrap_list_in
                this_external_address_in (map_in_order (connections_ mc))
                (map_in_order (connections_ mc))
                (map_in_order_NoDup_keys _) [] (eq_sym (app_nil_r _))) as Hinv.
  pose proof (GetBootstrapEndpoints_loop_keeps_input bootstrap_list_in
                this_external_address_in (map_in_order (connections_ mc))) as [_ Hkeep].
  cbv zeta in Hinv, Hkeep.
  destruct Hinv as (_ & _ & _ & _ & Haddr & Hcons).
  destruct (external_address_consistent _) eqn:Hc; [| done].
  intros Hspecified. split.
  - destruct (is_unspecified this_external_address_in) eqn:Hgiven;
      [| left; by apply Hkeep].
    destruct (Haddr Hspecified) as [? | ([peer_id transport] & Hin & Hp & Hs)];
      [by left | right]. split; [done |].
    exists peer_id, transport. by rewrite <- map_in_order_elem_of.
  - intros peer_id transport Hin. apply Hcons; [done |]. by apply map_in_order_elem_of.
Qed.

(** X24.  [GetBootstrapEndpoints] and the contacts.  With a shuffle that only
    reorders, the list handed back is a first part followed by a second part:
    the first part has every contact that was passed in and otherwise only
    contacts of connected peers on a public network, the second part only
    contacts of connected peers on a private network, and the list is no
    longer than the list passed in plus one contact for each entry of the
    connection directory. *)
Theorem GetBootstrapEndpoints_contacts (mc : ManagedConnections)
    (bootstrap_list_in : list Contact) (this_external_address_in : Address) :
  (∀ n l, random_shuffle n l ≡ₚ l) →
  let result := GetBootstrapEndpoints transports OnPrivateNetwork PeerNodeId PeerPublicKey
      ThisEndpointAsSeenByPeer Contact_of_endpoint random_shuffle mc bootstrap_list_in
      this_external_address_in in
  ∃ primary secondary,
    result.1 = primary ++ secondary ∧
    (∀ contact, contact ∈ bootstrap_list_in → contact ∈ primary) ∧
    (∀ contact, contact ∈ primary →
       contact ∈ bootstrap_list_in ∨
       ∃ peer_id transport,
         connections_ mc !! peer_id = Some transport ∧
         public_peer transports OnPrivateNetwork (peer_id, transport) ∧
         contact_of transports PeerNodeId PeerPublicKey Contact_of_endpoint
           (peer_id, transport) contact) ∧
    (∀ contact, contact ∈ secondary →
       ∃ peer_id transport,
         connections_ mc !! peer_id = Some transport ∧
         private_peer transports OnPrivateNetwork (peer_id, transport) ∧
         contact_of transports PeerNodeId PeerPublicKey Contact_of_endpoint
           (peer_id, transport) contact) ∧
    length result.1 ≤ length bootstrap_list_in + size (connections_ mc).
Proof.
  intros Hshuffle. unfold GetBootstrapEndpoints. cbn.
  pose proof (GetBootstrapEndpoints_loop_invariant bootstrap_list_in
                this_external_address_in (map_in_order (connections_ mc))
                (map_in_order (connections_ mc))
                (map_in_order_NoDup_keys _) [] (eq_sym (app_nil_r _))) as Hinv.
  pose proof (GetBootstrapEndpoints_loop_keeps_input bootstrap_list_in
                this_external_address_in (map_in_order (connections_ mc)))
    as [(added & Hadded) _].
  cbv zeta in Hinv, Hadded.
  destruct Hinv as (_ & Hbl & Hsl & Hlen & _ & _).
  set (locals := foldl (GetBootstrapEndpoints_body _ _ _ _ _ _) _ _) in *.
  exists (random_shuffle 0 (bootstrap_list locals)),
         (random_shuffle 1 (secondary_list locals)).
  split_and!; [done | | | |].
  - intros contact Hin. rewrite Hshuffle, Hadded. apply elem_of_app. by left.
  - intros contact Hin. rewrite Hshuffle in Hin.
    destruct (Hbl contact Hin) as [? | ([peer_id transport] & He & Hp & Hc)];
      [by left | right].
    exists peer_id, transport. by rewrite <- map_in_order_elem_of.
  - intros contact Hin. rewrite Hshuffle in Hin.
    destruct (Hsl contact Hin) as ([peer_id transport] & He & Hp & Hc).
    exists peer_id, transport. by rewrite <- map_in_order_elem_of.
  - rewrite length_app, !Hshuffle, <- map_in_order_length. done.
Qed.

End BootstrapEndpointsProperties.

(** ** The further properties at the example directories *)

(** The idle transport [7] is picked for peer [4]. *)
Lemma SelectIdleTransport_picks_first_available_witness :
  ∃ selected pair mc1 calls,
    SelectIdleTransport false example_transports 4%N EndpointPair_default example_mc_idle =
      Returns (selected, pair) mc1 calls ∧
    connections_ mc1 = connections_ example_mc_idle.
Proof.
  destruct (SelectIdleTransport_picks_first_available false example_transports 4%N
              EndpointPair_default example_mc_idle (λ _, eq_refl))
    as (selected & pair & mc1 & calls & Hrun & Hconnections & _).
  by exists selected, pair, mc1, calls.
Defined.

(** No idle transport: transport [5], with two connections, is picked. *)
Lemma SelectAnyTransport_cases_witness :
  ∃ selected pair mc1 calls,
    SelectAnyTransport false 64 example_transports 4%N EndpointPair_default example_mc =
      Returns (selected, pair) mc1 calls ∧
    connections_ mc1 = connections_ example_mc.
Proof.
  assert (GetAvailableTransport 64 example_transports example_mc = Some 5%N) as Hget
    by (vm_compute; reflexivity).
  destruct (SelectAnyTransport_cases false 64 example_transports 4%N
              EndpointPair_default example_mc (λ _, eq_refl))
    as (selected & pair & mc1 & calls & Hrun & Hconnections & _).
  { intros _ t Ht. rewrite Hget in Ht. injection Ht as <-. reflexivity. }
  by exists selected, pair, mc1, calls.
Defined.

(** An endpoint reserved for peer [4] on transport [7] times out. *)
Lemma AddPending_then_timeout_witness :
  (AddPending (new_PendingConnection 4%N 7%N) ≫= λ _, OnPendingTimeout false 4%N)
    example_mc_idle =
    Returns tt example_mc_idle [Timer_async_wait 4%N].
Proof.
  apply (AddPending_then_timeout 4%N 7%N example_mc_idle). reflexivity.
Defined.

(** Transport [5] reports a temporary connection while the closed
    transport [6] is in the idle set: [6] is erased, and [7], which is
    available, is the idle set afterwards. *)
Lemma OnConnectionAddedSlot_debug_idle_available_witness :
  6%N ∈ idle_transports_ example_mc_two_idle ∧
  IsAvailable (example_transports_closed 6%N) = false ∧
  OnConnectionAddedSlot false example_transports_closed 4%N 5%N true example_mc_two_idle =
    Returns false (set_idle_transports {[7%N]} example_mc_two_idle) [] ∧
  idle_transports_available example_transports_closed
    (set_idle_transports {[7%N]} example_mc_two_idle).
Proof.
  assert (OnConnectionAddedSlot false example_transports_closed 4%N 5%N true
            example_mc_two_idle =
          Returns false (set_idle_transports {[7%N]} example_mc_two_idle) []) as Hrun
    by (vm_compute; reflexivity).
  split_and!; [vm_compute; reflexivity | reflexivity | exact Hrun |].
  exact (OnConnectionAddedSlot_debug_idle_available example_transports_closed 4%N 5%N true
           example_mc_two_idle _ false [] Hrun).
Defined.

(** Transport [7] reports the loss of a temporary connection. *)
Lemma OnConnectionLostSlot_debug_idle_available_witness :
  idle_transports_available example_transports
    (set_idle_transports ({[7%N]} ∪ {[7%N]}) example_mc_idle).
Proof.
  apply (OnConnectionLostSlot_debug_idle_available example_transports 4%N 7%N true
           example_mc_idle _ []).
  - intros t Ht. cbn in Ht. apply elem_of_singleton in Ht. subst t. reflexivity.
  - reflexivity.
Defined.

(** Transport [7] reports the loss of peer [3], who is recorded on
    transport [5]. *)
Lemma OnConnectionLostSlot_other_transport_witness :
  OnConnectionLostSlot false example_transports 3%N 7%N false example_mc =
    Aborts assertion_failed.
Proof.
  apply (OnConnectionLostSlot_other_transport example_transports 3%N 7%N 5%N example_mc).
  - reflexivity.
  - discriminate.
Defined.

(** Peer [4] comes and goes on transport [7] while the closed
    transport [6] is in the idle set. *)
Lemma OnConnectionAdded_then_Lost_witness :
  ∃ mc1 mc2,
    OnConnectionAddedSlot false example_transports_closed 4%N 7%N false
      example_mc_two_idle = Returns false mc1 [] ∧
    OnConnectionLostSlot false example_transports_closed 4%N 7%N false mc1 =
      Returns tt mc2 [Listener_ConnectionLost 1%N 4%N] ∧
    connections_ mc2 = connections_ example_mc_two_idle ∧
    7%N ∈ idle_transports_ mc2 ∧
    6%N ∉ idle_transports_ mc2.
Proof.
  destruct (OnConnectionAdded_then_Lost false example_transports_closed 4%N 7%N
              example_mc_two_idle)
    as (mc1 & mc2 & Hadded & _ & Hlost & Hconnections & Hthis & Hothers).
  - intros _ _. reflexivity.
  - reflexivity.
  - exists mc1, mc2. split_and!; [exact Hadded | exact Hlost | exact Hconnections | |].
    + apply Hthis. reflexivity.
    + intros Hin. apply Hothers in Hin as [_ Havailable]; [| discriminate].
      specialize (Havailable eq_refl). discriminate.
Defined.

(** Peer [3] is removed, and transport [5] reports the loss. *)
Lemma DoRemove_then_lost_witness :
  DoRemove 3%N example_mc = Returns tt example_mc [Transport_CloseConnection 5%N 3%N] ∧
  ∃ mc1 calls,
    OnConnectionLostSlot false example_transports 3%N 5%N false example_mc =
      Returns tt mc1 calls ∧
    connections_ mc1 !! 3%N = None ∧
    DoRemove 3%N mc1 = Returns tt mc1 [].
Proof.
  apply (DoRemove_then_lost false example_transports 3%N 5%N example_mc).
  - intros _ _. reflexivity.
  - discriminate.
  - reflexivity.
Defined.

(** A message for peer [3], without a handler. *)
Lemma DoSend_keeps_directory_witness :
  DoSend example_transports 3%N [] None example_mc =
    Returns tt example_mc [Transport_Send 5%N 3%N [] None].
Proof.
  destruct (DoSend_keeps_directory example_transports 3%N [] None example_mc)
    as (_ & _ & Hempty).
  apply Hempty; [reflexivity | discriminate].
Defined.

(** [Add] for peer [2], whose pending connection is on transport [5]. *)
Lemma DoAdd_keeps_invariants_witness :
  node_id <$> [mkPendingConnection 2%N 5%N true] `sublist_of`
  node_id <$> pendings_ example_mc_pending.
Proof.
  pose proof (DoAdd_keeps_invariants false example_IsValid example_transports
                (example_contact 2%N) (Some 0%N) example_mc_pending
                (set_pendings [mkPendingConnection 2%N 5%N true] example_mc_pending)
                [Handler_invoked 0%N None] eq_refl)
    as (_ & _ & _ & Hsublist & _).
  exact Hsublist.
Defined.


(** A listener, the node id [9] and one bootstrap contact. *)
Lemma CheckBootstrappingParameters_accepts_witness :
  CheckBootstrappingParameters (-1)%Z (-2)%Z [example_contact 2%N] (Some 1%N) 9%N =
    kSuccess ↔
  is_Some (Some 1%N : option Listener) ∧ NodeId_IsValid 9%N = true ∧
  [example_contact 2%N] ≠ [].
Proof.
  apply (CheckBootstrappingParameters_accepts (-1)%Z (-2)%Z [example_contact 2%N]
           (Some 1%N) 9%N); discriminate.
Defined.

(** No endpoint is given and the local IP is [10]. *)
Lemma TryToDetermineLocalEndpoint_result_witness :
  let '(code, local_ip, endpoint) :=
    TryToDetermineLocalEndpoint example_IsValid (-3)%Z 10%N Endpoint_default in
  code = kSuccess → address endpoint = local_ip.
Proof.
  pose proof (TryToDetermineLocalEndpoint_result example_IsValid (-3)%Z 10%N
                Endpoint_default ltac:(discriminate)) as Hresult.
  cbn in *. by destruct Hresult as (_ & Haddress & _).
Defined.

(** Only the bootstrap connection to peer [2], and the idle transport
    [7]. *)
Lemma ClearConnectionsAndIdleTransports_closes_witness :
  ∃ calls,
    ClearConnectionsAndIdleTransports false example_transports
      (set_connections {[2%N := 5%N]} example_mc_idle) =
      Returns tt
        (mkManagedConnections (Some 1%N) 9%N Contact_default ∅ [] ∅ kSymmetric) calls ∧
    Transport_Close 5%N ∈ calls.
Proof.
  destruct (ClearConnectionsAndIdleTransports_closes false example_transports
              (set_connections {[2%N := 5%N]} example_mc_idle))
    as (calls & Hrun & _ & Hclosed).
  - intros _ peer_id t Hlookup. cbn in Hlookup.
    apply lookup_singleton_Some in Hlookup as [<- <-].
    eexists. split; reflexivity.
  - exists calls. split; [exact Hrun |].
    apply Hclosed. left. exists 2%N. reflexivity.
Defined.

(** The connection to peer [1] is unvalidated. *)
Lemma ClearConnectionsAndIdleTransports_debug_aborts_witness :
  ClearConnectionsAndIdleTransports false example_transports example_mc =
    Aborts assertion_failed.
Proof.
  apply (ClearConnectionsAndIdleTransports_debug_aborts example_transports example_mc
           1%N 5%N).
  - reflexivity.
  - intros (connection & Hget & Hstate). cbn in Hget. injection Hget as <-.
    discriminate.
Defined.

(** A cone NAT; the asking transport is not transport [5]. *)
Lemma OnNatDetectionRequestedSlot_cases_witness :
  ∃ k t,
    OnNatDetectionRequestedSlot true example_transports (mkEndpoint 10%N 5007%N) 4%N
      (mkEndpoint 40%N 8000%N)
      (mkManagedConnections (Some 1%N) 9%N Contact_default (connections_ example_mc) [] ∅
         kOther) =
      Returns (port (external_endpoint (example_transports t)),
               Some (t, 4%N, mkEndpoint 40%N 8000%N))
        (mkManagedConnections (Some 1%N) 9%N Contact_default (connections_ example_mc) [] ∅
           kOther) [] ∧
    connections_ example_mc !! k = Some t.
Proof.
  destruct (OnNatDetectionRequestedSlot_cases true example_transports
              (mkEndpoint 10%N 5007%N) 4%N (mkEndpoint 40%N 8000%N)
              (mkManagedConnections (Some 1%N) 9%N Contact_default
                 (connections_ example_mc) [] ∅ kOther))
    as (_ & _ & Hfound).
  destruct Hfound as (k & t & Hlookup & _ & Hrun).
  - reflexivity.
  - exists 1%N, 5%N. split; [reflexivity | discriminate].
  - by exists k, t.
Defined.

(** Two [Add]s for peer [4], whose pending connection is on transport
    [7]. *)
Lemma DoAdd_twice_witness :
  ∃ mc1,
    DoAdd false example_IsValid example_transports (example_contact 4%N) (Some 0%N)
      (set_pendings [mkPendingConnection 4%N 7%N false] example_mc_idle) =
      Returns tt mc1 [Transport_Connect 7%N (example_contact 4%N) (Some 0%N)] ∧
    DoAdd false example_IsValid example_transports (example_contact 4%N) (Some 1%N) mc1 =
      Returns tt mc1 [Handler_invoked 1%N (Some connection_already_in_progress)].
Proof.
  apply (DoAdd_twice false example_IsValid example_transports (example_contact 4%N)
           (Some 0%N) 1%N (set_pendings [mkPendingConnection 4%N 7%N false] example_mc_idle)
           0 (mkPendingConnection 4%N 7%N false)).
  - discriminate.
  - reflexivity.
  - reflexivity.
  - reflexivity.
Defined.

(** Transports [7] and [5] both report a normal connection to peer [4]
    while the closed transport [6] is in the idle set. *)
Lemma OnConnectionAddedSlot_twice_witness :
  ∃ mc1 mc2,
    OnConnectionAddedSlot false example_transports_closed 4%N 7%N false
      example_mc_two_idle = Returns false mc1 [] ∧
    OnConnectionAddedSlot false example_transports_closed 4%N 5%N false mc1 =
      Returns true mc2 [] ∧
    connections_ mc2 = <[4%N := 7%N]> (connections_ example_mc_two_idle) ∧
    connections_ mc2 !! 4%N = Some 7%N.
Proof.
  apply (OnConnectionAddedSlot_twice false example_transports_closed 4%N 7%N 5%N
           example_mc_two_idle).
  - intros _ _. reflexivity.
  - reflexivity.
Defined.

(** No address is passed in: the address handed back is the one under
    which the public peers [1] and [3] see this node. *)
Lemma GetBootstrapEndpoints_external_address_witness :
  is_unspecified (example_GetBootstrapEndpoints [] Address_default).2 = false ∧
  ((example_GetBootstrapEndpoints [] Address_default).2 = Address_default ∨
   is_unspecified Address_default = true ∧
   ∃ peer_id transport,
     connections_ example_mc !! peer_id = Some transport ∧
     public_peer example_transports example_OnPrivateNetwork (peer_id, transport) ∧
     seen_address example_ThisEndpointAsSeenByPeer (peer_id, transport) =
       (example_GetBootstrapEndpoints [] Address_default).2).
Proof.
  assert (is_unspecified (example_GetBootstrapEndpoints [] Address_default).2 = false)
    as Hspecified by (vm_compute; reflexivity).
  split; [exact Hspecified |].
  exact (proj1 (GetBootstrapEndpoints_external_address example_transports
                  example_OnPrivateNetwork example_PeerNodeId example_PeerPublicKey
                  example_ThisEndpointAsSeenByPeer example_Contact_of_endpoint
                  example_random_shuffle example_mc [] Address_default Hspecified)).
Defined.

(** One contact is passed in: it comes first, and at most three are added. *)
Lemma GetBootstrapEndpoints_contacts_witness :
  ∃ primary secondary,
    (example_GetBootstrapEndpoints [example_contact 8%N] Address_default).1 =
      primary ++ secondary ∧
    example_contact 8%N ∈ primary ∧
    length (example_GetBootstrapEndpoints [example_contact 8%N] Address_default).1 ≤
      1 + size (connections_ example_mc).
Proof.
  destruct (GetBootstrapEndpoints_contacts example_transports example_OnPrivateNetwork
              example_PeerNodeId example_PeerPublicKey example_ThisEndpointAsSeenByPeer
              example_Contact_of_endpoint example_random_shuffle example_mc
              [example_contact 8%N] Address_default)
    as (primary & secondary & Hresult & Hkept & _ & _ & Hlength).
  - intros n l. reflexivity.
  - exists primary, secondary. split_and!; [exact Hresult | | exact Hlength].
    apply Hkept. left.
Defined.
